(** * The OpenAI Codex provider of vim-ai (py/providers/openai_codex.py)

    A shallow embedding of [OpenAICodexProvider] and of the test double
    tests/mocks/vim.py, followed by the properties of the prompt
    compiler, the option normaliser, the request builder, the transport
    and decoder, and the response mapper.

    Conventions of the embedding.
    - A Python [str] is the list of its code points.
    - A Python object of type [Any] (option values, decoded JSON) is a
      [pyval]; a [dict] with string keys is a [gmap], except inside decoded
      JSON, where it is the association list of its items.
    - A statement that may raise returns an [outcome]; code that reaches
      the network runs in the monad [M], whose state is the log of the
      HTTP calls made so far.
    - A generator is described by its complete run: the values it yields,
      in order, and the exception that ends it, if any.
    - The interpreter's own functions ([int], [float], [json.loads],
      [bytes.decode]) and the host's ([vim.eval], [utils.load_api_key],
      [urllib.request.Request], [urllib.request.urlopen] and the reading
      of its response) are fields of the classes [Python] and [Host];
      [utils.print_debug], whose result is never used, is left out. *)

From Stdlib Require Import ZArith NArith QArith List String Ascii Lia.
From stdpp Require Import gmap strings list.

#[local] Set Warnings "-register-all".
Local Open Scope Z_scope.
Local Open Scope list_scope.

(** ** Text *)

Abbreviation pystr := (list N).

(** The code points of an ASCII literal. *)
Definition lit (s : string) : pystr :=
  map N_of_ascii (list_ascii_of_string s).

Notation "« s »" := (lit s) (at level 0, format "« s »").

(** An ASCII literal in which each ['] stands for a double quote. *)
Definition jlit (s : string) : pystr :=
  map (fun c => if (c =? 39)%N then 34%N else c) (lit s).

(** [str.isspace] on one code point: the characters [str.strip] removes. *)
Definition is_space (c : N) : bool :=
  ((9 <=? c) && (c <=? 13) || (28 <=? c) && (c <=? 32)
   || (c =? 133) || (c =? 160) || (c =? 5760)
   || (8192 <=? c) && (c <=? 8202)
   || (c =? 8232) || (c =? 8233) || (c =? 8239) || (c =? 8287)
   || (c =? 12288))%N.

Fixpoint lstrip (s : pystr) : pystr :=
  match s with
  | c :: s' => if is_space c then lstrip s' else s
  | [] => []
  end.

Definition rstrip (s : pystr) : pystr := rev (lstrip (rev s)).

(** [s.strip()] *)
Definition strip (s : pystr) : pystr := rstrip (lstrip s).

(** [s.startswith(prefix)] *)
Fixpoint startswith (s prefix : pystr) {struct prefix} : bool :=
  match prefix, s with
  | [], _ => true
  | p :: prefix', c :: s' => (c =? p)%N && startswith s' prefix'
  | _ :: _, [] => false
  end.

(** [s == t] on strings. *)
Definition str_eqb (s t : pystr) : bool := bool_decide (s = t).

(** [sep.join(parts)] *)
Fixpoint join (sep : pystr) (parts : list pystr) : pystr :=
  match parts with
  | [] => []
  | [p] => p
  | p :: rest => p ++ sep ++ join sep rest
  end.

(** [s.split(sep)] for a one-character separator: never the empty list. *)
Fixpoint split (sep : N) (s : pystr) : list pystr :=
  match s with
  | [] => [[]]
  | c :: s' =>
      if (c =? sep)%N then [] :: split sep s'
      else match split sep s' with
           | seg :: segs => (c :: seg) :: segs
           | [] => [[c]]
           end
  end.

(** ** Objects *)

Inductive pyval (F : Type) : Type :=
| PNone
| PBool (b : bool)
| PInt (z : Z)
| PFloat (f : F)
| PStr (s : pystr)
| PList (l : list (pyval F))
| PDict (items : list (pystr * pyval F)).

Arguments PNone {F}.
Arguments PBool {F} b.
Arguments PInt {F} z.
Arguments PFloat {F} f.
Arguments PStr {F} s.
Arguments PList {F} l.
Arguments PDict {F} items.

Inductive exn : Type :=
| KnownError (msg : pystr)        (* what utils.make_known_error builds *)
| ValueError (msg : pystr)
| JSONDecodeError (msg : pystr)
| RecursionError (msg : pystr)
| UnicodeDecodeError (msg : pystr)
| KeyError (key : pystr)
| IndexError
| AttributeError
| TypeError (msg : pystr)
| TransportError (msg : pystr).   (* whatever urlopen raises *)

Inductive outcome (A : Type) : Type :=
| Ok (a : A)
| Raise (e : exn).

Arguments Ok {A} a.
Arguments Raise {A} e.

#[global] Instance outcome_ret : MRet outcome := fun _ a => Ok a.
#[global] Instance outcome_bind : MBind outcome := fun _ _ k o =>
  match o with
  | Ok a => k a
  | Raise e => Raise e
  end.

(** The interpreter: the float type and the built-in conversions the
    provider applies to text.  A conversion returns the exception it
    raises on the left: a [ValueError] for text that is no number, a
    [json.JSONDecodeError] for text that is not JSON, and whatever else the
    interpreter raises, such as the [RecursionError] of [json.loads] on
    deeply nested text. *)
Class Python := {
  float : Type;
  float_is_zero : float -> bool;
  py_int : pystr -> exn + Z;
  py_float : pystr -> exn + float;
  json_loads : pystr -> exn + pyval float;
  (* bytes.decode(): strict UTF-8 *)
  decode_strict : list N -> pystr + pystr;
  (* bytes.decode("utf-8", errors="replace") *)
  decode_replace : list N -> pystr;
}.

Abbreviation value := (pyval float).

(** [bool(v)]: the truth value of an object. *)
Definition truthy `{Python} (v : value) : bool :=
  match v with
  | PNone => false
  | PBool b => b
  | PInt z => negb (z =? 0)
  | PFloat f => negb (float_is_zero f)
  | PStr s => negb (str_eqb s [])
  | PList l => negb (bool_decide (l = []))
  | PDict items => negb (bool_decide (items = []))
  end.

(** [v == 0]: numbers compare by value across [bool], [int] and [float]. *)
Definition eq_zero `{Python} (v : value) : bool :=
  match v with
  | PBool b => negb b
  | PInt z => z =? 0
  | PFloat f => float_is_zero f
  | _ => false
  end.

(** [v in ('', None)] *)
Definition in_empty_or_none `{Python} (v : value) : bool :=
  match v with
  | PStr [] => true
  | PNone => true
  | _ => false
  end.

(** [v == s] for a string literal [s]. *)
Definition eq_str `{Python} (v : value) (s : pystr) : bool :=
  match v with
  | PStr t => str_eqb t s
  | _ => false
  end.

(** [d.get(key)] on a decoded JSON object, [None] of Rocq for a missing key. *)
Fixpoint items_get {F : Type} (items : list (pystr * pyval F)) (key : pystr)
  : option (pyval F) :=
  match items with
  | [] => None
  | (k, v) :: rest => if str_eqb k key then Some v else items_get rest key
  end.

(** The decoded event whose only choice has the text [text]. *)
Definition choices_with_text {F : Type} (text : pystr) : pyval F :=
  PDict [(«"choices"», PList [PDict [(«"text"», PStr text)]])].

(** ** Messages (py.types.AIMessage) *)

Record AIMessageContent := {
  part_type : option pystr;     (* c.get("type") *)
  part_text : option pystr;     (* c.get("text") *)
}.

Record AIMessage := {
  role : option pystr;                       (* message.get("role") *)
  content : option (list AIMessageContent);  (* message.get("content") *)
}.

(** ** The network *)

Record http_request `{Python} := {
  req_url : value;
  req_data : gmap pystr value;      (* the document json.dumps serialises *)
  req_headers : gmap pystr pystr;
  req_method : pystr;
  req_timeout : value;
}.

(** The body of an HTTP response, as the lines iterating over it gives;
    [response.read()] is their concatenation. *)
Record http_response := { body_lines : list (list N) }.

Definition read (r : http_response) : list N := concat (body_lines r).

(** The host: the editor, the plugin's utilities, the transport. *)
Class Host `{Python} := {
  (* vim.eval, on the names of the two default-option dictionaries *)
  vim_eval : pystr -> gmap pystr value;
  (* utils.load_api_key(env_variable, token_file_path=, token_load_fn=) *)
  load_api_key : pystr -> value -> value -> outcome pystr;
  (* urllib.request.Request(url, data=json.dumps(data).encode("utf-8"),
     headers=headers, method=method): building the request raises, a
     ValueError for a URL without scheme, or does not *)
  Request : value -> gmap pystr value -> gmap pystr pystr -> pystr -> outcome unit;
  (* urllib.request.urlopen(req, timeout=req_timeout) *)
  urlopen : http_request -> outcome http_response;
  (* the exception that reading the response to req raises once the lines
     of the response are consumed, when the connection breaks *)
  read_failure : http_request -> option exn;
}.

(** The state of the world the provider can change: the HTTP calls made. *)
Record world `{Python} := { http_calls : list http_request }.

Definition M `{Python} (A : Type) : Type := world -> outcome A * world.

#[global] Instance M_ret `{Python} : MRet M := fun _ a w => (Ok a, w).
#[global] Instance M_bind `{Python} : MBind M := fun _ _ k m w =>
  match m w with
  | (Ok a, w') => k a w'
  | (Raise e, w') => (Raise e, w')
  end.

(** A statement without effect on the world. *)
Definition pure `{Python} {A : Type} (o : outcome A) : M A := fun w => (o, w).

(** [urlopen(req)]: the call is made, then answered or failed. *)
Definition http_call `{Python} `{!Host} (req : http_request) : M http_response :=
  fun w => (urlopen req, {| http_calls := http_calls w ++ [req] |}).

(** The complete run of a generator. *)
Record run (A : Type) := {
  yielded : list A;
  ending : option exn;       (* None: StopIteration *)
}.

Arguments yielded {A} r.
Arguments ending {A} r.

(** [yield a], then the rest of the run. *)
Definition yield {A : Type} (a : A) (rest : run A) : run A :=
  {| yielded := a :: yielded rest; ending := ending rest |}.

Definition stop {A : Type} : run A := {| yielded := []; ending := None |}.
Definition fail {A : Type} (e : exn) : run A := {| yielded := []; ending := Some e |}.

(** ** The provider *)

Module OpenAICodexProvider.
Section Provider.
Context `{Python} `{!Host}.

Definition default_options_varname_complete : pystr :=
  «"g:vim_ai_openai_codex_complete"».
Definition default_options_varname_edit : pystr :=
  «"g:vim_ai_openai_codex_edit"».

(** The attributes [__init__] sets ([self.utils] is the class [Host]). *)
Record provider := {
  command_type : pystr;
  options : gmap pystr value;
}.

Record AIResponseChunk := {
  chunk_type : pystr;        (* "type" *)
  chunk_content : value;     (* "content" *)
}.

(** [getattr(self, f"default_options_varname_{command_type}", '')] *)
Definition config_varname (command_type : pystr) : pystr :=
  if str_eqb command_type «"complete"» then default_options_varname_complete
  else if str_eqb command_type «"edit"» then default_options_varname_edit
  else [].

Definition _ensure_supported_command (command_type : pystr) : outcome unit :=
  if negb (str_eqb command_type «"complete"» || str_eqb command_type «"edit"»)
  then Raise (KnownError
                «"OpenAI Codex provider supports only :AI and :AIEdit commands"»)
  else Ok tt.

(** *** Prompt helpers *)

Definition role_labels : gmap pystr pystr :=
  list_to_map [ («"system"», «"System"»); («"user"», «"User"»);
                («"assistant"», «"Assistant"»); («"tool"», «"Tool"») ].

Definition newline : pystr := [10%N].

(** The body of the loop over the messages: the text of one message. *)
Definition message_text (message : AIMessage) : pystr :=
  let text_chunks :=
    map (fun c => default [] (part_text c))
        (List.filter (fun c => bool_decide (part_type c = Some «"text"»))
                     (default [] (content message))) in
  strip (join newline (List.filter (fun t => negb (str_eqb t [])) text_chunks)).

(** One turn of the loop: [prompt_parts] after [message]. *)
Definition add_message (prompt_parts : list pystr) (message : AIMessage)
  : list pystr :=
  let text := message_text message in
  if str_eqb text [] then prompt_parts
  else
    let role := default «"User"»
                  (role_labels !! default «"user"» (role message)) in
    prompt_parts ++ [role ++ «"::"» ++ newline ++ text].

(** [prompt_parts] when [_messages_to_prompt] joins it. *)
Definition prompt_parts (messages : list AIMessage) : list pystr :=
  let prompt_parts := fold_left add_message messages [] in
  match last prompt_parts with
  | None => prompt_parts ++ [«"Assistant::"»]
  | Some block =>
      if negb (startswith block «"Assistant::"»)
      then prompt_parts ++ [«"Assistant::"»]
      else prompt_parts
  end.

Definition _messages_to_prompt (messages : list AIMessage) : pystr :=
  join (newline ++ newline) (prompt_parts messages).

(** *** Option helpers *)

(** The nested function of [_parse_raw_options]; [options] is passed and
    returned instead of updated in place.  The [except] clause catches
    [ValueError], [TypeError] and [json.JSONDecodeError], with the message
    of the exception as [error]; any other exception goes through. *)
Definition _convert_option (name : pystr) (converter : pystr -> exn + value)
    (options : gmap pystr value) : outcome (gmap pystr value) :=
  match options !! name with
  | Some (PStr raw) =>
      if negb (str_eqb raw []) then
        match converter raw with
        | inr v => Ok (<[name := v]> options)
        | inl (ValueError error) | inl (TypeError error)
        | inl (JSONDecodeError error) =>
            Raise (KnownError («"Invalid value for option '"» ++ name ++ «"': "»
                               ++ raw ++ «". Error: "» ++ error))
        | inl e => Raise e
        end
      else Ok options
  | _ => Ok options
  end.

Definition conv_float (x : pystr) : exn + value :=
  match py_float x with inr f => inr (PFloat f) | inl e => inl e end.
Definition conv_int (x : pystr) : exn + value :=
  match py_int x with inr z => inr (PInt z) | inl e => inl e end.
(** [lambda x: bool(int(x))] *)
Definition conv_bool (x : pystr) : exn + value :=
  match py_int x with inr z => inr (PBool (negb (z =? 0))) | inl e => inl e end.
Definition conv_str (x : pystr) : exn + value := inr (PStr x).

(** The calls of [_convert_option], in the order of the source. *)
Definition converters : list (pystr * (pystr -> exn + value)) :=
  [ («"request_timeout"», conv_float);
    («"temperature"», conv_float);
    («"max_tokens"», conv_int);
    («"top_p"», conv_float);
    («"presence_penalty"», conv_float);
    («"frequency_penalty"», conv_float);
    («"best_of"», conv_int);
    («"n"», conv_int);
    («"stream"», conv_bool);
    («"logprobs"», conv_int);
    («"suffix"», conv_str);
    («"stop"», json_loads);
    («"logit_bias"», json_loads) ].

Fixpoint convert_all (cs : list (pystr * (pystr -> exn + value)))
    (options : gmap pystr value) : outcome (gmap pystr value) :=
  match cs with
  | [] => Ok options
  | (name, converter) :: cs' =>
      options' ← _convert_option name converter options;
      convert_all cs' options'
  end.

Definition _parse_raw_options (raw_options : gmap pystr value)
  : outcome (gmap pystr value) :=
  convert_all converters raw_options.

Definition option_keys : list pystr :=
  [ «"suffix"»; «"max_tokens"»; «"temperature"»; «"top_p"»; «"n"»; «"stream"»;
    «"logprobs"»; «"stop"»; «"presence_penalty"»; «"frequency_penalty"»;
    «"best_of"»; «"logit_bias"» ].

Definition count_like : list pystr :=
  [ «"max_tokens"»; «"logprobs"»; «"best_of"»; «"n"» ].

(** One turn of the loop of [_make_codex_options]. *)
Definition add_option (options : gmap pystr value)
    (result : gmap pystr value) (key : pystr) : gmap pystr value :=
  match options !! key with
  | None => result
  | Some v =>
      if in_empty_or_none v then result
      else if bool_decide (key ∈ count_like) && eq_zero v then result
      else <[key := v]> result
  end.

Definition _make_codex_options (options : gmap pystr value)
  : outcome (gmap pystr value) :=
  match options !! «"model"» with
  | None => Raise (KeyError «"model"»)
  | Some model =>
      Ok (fold_left (add_option options) option_keys {[ «"model"» := model ]})
  end.

(** *** HTTP helpers *)

Definition comma : N := 44%N.

(** [options.get(key, '')] *)
Definition get_or_empty (options : gmap pystr value) (key : pystr) : value :=
  default (PStr []) (options !! key).

Definition _load_api_key (self : provider) : outcome (pystr * option pystr) :=
  raw_api_key ← load_api_key «"OPENAI_API_KEY"»
                   (get_or_empty (options self) «"token_file_path"»)
                   (get_or_empty (options self) «"token_load_fn"»);
  let elements := split comma (strip raw_api_key) in
  let api_key := strip (nth 0 elements []) in
  let org_id := if bool_decide (1 < length elements)%nat
                then Some (strip (nth 1 elements []))
                else None in
  Ok (api_key, org_id).

(** The headers of the request, as [_openai_request] fills them in
    before it builds the [Request]. *)
Definition request_headers (self : provider) (options : gmap pystr value)
  : outcome (gmap pystr pystr) :=
  let headers : gmap pystr pystr :=
    {[ «"Content-Type"» := «"application/json"»; «"User-Agent"» := «"VimAI"» ]} in
  match options !! «"auth_type"» with
  | None => Raise (KeyError «"auth_type"»)
  | Some auth_type =>
      if eq_str auth_type «"bearer"» then
        '(api_key, org_id) ← _load_api_key self;
        let headers := <[ «"Authorization"» := «"Bearer "» ++ api_key ]> headers in
        match org_id with
        | Some org =>
            if negb (str_eqb org [])
            then Ok (<[ «"OpenAI-Organization"» := org ]> headers)
            else Ok headers
        | None => Ok headers
        end
      else if eq_str auth_type «"api-key"» then
        '(api_key, _) ← _load_api_key self;
        Ok (<[ «"api-key"» := api_key ]> headers)
      else Ok headers
  end.

Definition resp_data_prefix : pystr := «"data: "».
Definition resp_done : pystr := «"[DONE]"».

(** The loop over the lines of a streamed body. *)
Fixpoint read_stream (lines : list (list N)) : run value :=
  match lines with
  | [] => stop
  | line_bytes :: rest =>
      let line := decode_replace line_bytes in
      if negb (startswith line resp_data_prefix) then read_stream rest
      else
        let payload := strip (drop (length resp_data_prefix) line) in
        if str_eqb payload resp_done then read_stream rest
        else match json_loads payload with
             | inr event => yield event (read_stream rest)
             | inl e => fail e
             end
  end.

(** The body of the [with] statement of [_openai_request]. *)
Definition read_response (data : gmap pystr value) (response : http_response)
  : run value :=
  if negb (truthy (default PNone (data !! «"stream"»))) then
    match decode_strict (read response) with
    | inr text =>
        match json_loads text with
        | inr event => yield event stop
        | inl e => fail e
        end
    | inl msg => fail (UnicodeDecodeError msg)
    end
  else read_stream (body_lines response).

(** The body of the [with] statement when reading the response raises
    [broken] once its lines are consumed: [response.read()] raises at
    once; the loop over the lines raises after the last line, unless
    decoding has ended the run before. *)
Definition read_broken (data : gmap pystr value) (response : http_response)
    (broken : exn) : run value :=
  if negb (truthy (default PNone (data !! «"stream"»))) then fail broken
  else
    let events := read_stream (body_lines response) in
    match ending events with
    | None => {| yielded := yielded events; ending := Some broken |}
    | Some _ => events
    end.

Definition _openai_request (self : provider) (url : value)
    (data : gmap pystr value) (options : gmap pystr value)
  : world -> run value * world :=
  fun w =>
    let opened :=
      (headers ← pure (request_headers self options);
       let request_timeout := default (PInt 20) (options !! «"request_timeout"») in
       _ ← pure (Request url data headers «"POST"»);
       let req := {| req_url := url; req_data := data; req_headers := headers;
                     req_method := «"POST"»; req_timeout := request_timeout |} in
       response ← http_call req;
       mret (response, read_failure req)) w in
    match opened with
    | (Ok (response, None), w') => (read_response data response, w')
    | (Ok (response, Some broken), w') => (read_broken data response broken, w')
    | (Raise e, w') => (fail e, w')
    end.

(** *** Requests *)

(** [obj[0]] *)
Definition first_item (obj : value) : outcome value :=
  match obj with
  | PList (x :: _) => Ok x
  | PList [] => Raise IndexError
  | PStr (c :: _) => Ok (PStr [c])
  | PStr [] => Raise IndexError
  | PDict _ => Raise (KeyError «"0"»)
  | PNone => Raise (TypeError «"'NoneType' object is not subscriptable"»)
  | PBool _ => Raise (TypeError «"'bool' object is not subscriptable"»)
  | PInt _ => Raise (TypeError «"'int' object is not subscriptable"»)
  | PFloat _ => Raise (TypeError «"'float' object is not subscriptable"»)
  end.

(** [obj.get(key, default)]: only a [dict] has the method. *)
Definition get_item (obj : value) (key : pystr) (dflt : value) : outcome value :=
  match obj with
  | PDict items => Ok (default dflt (items_get items key))
  | _ => Raise AttributeError
  end.

(** The nested function of [request]; Rocq's [None] is Python's. *)
Definition _map_chunk (resp : value) : outcome (option AIResponseChunk) :=
  got ← get_item resp «"choices"» PNone;
  let choices := if truthy got then got else PList [PDict []] in
  first ← first_item choices;
  text ← get_item first «"text"» (PStr []);
  if truthy text
  then Ok (Some {| chunk_type := «"assistant"»; chunk_content := text |})
  else Ok None.

(** [filter(None, map(_map_chunk, response))], run to its end. *)
Fixpoint map_chunks (events : list value) (ending : option exn)
  : run AIResponseChunk :=
  match events with
  | [] => {| yielded := []; ending := ending |}
  | resp :: rest =>
      match _map_chunk resp with
      | Ok (Some chunk) => yield chunk (map_chunks rest ending)
      | Ok None => map_chunks rest ending
      | Raise e => fail e
      end
  end.

(** [options[key]] *)
Definition item (options : gmap pystr value) (key : pystr) : outcome value :=
  match options !! key with
  | Some v => Ok v
  | None => Raise (KeyError key)
  end.

(** [list(self.request(messages))] *)
Definition request (self : provider) (messages : list AIMessage)
  : world -> run AIResponseChunk * world :=
  fun w =>
    let prompt := _messages_to_prompt messages in
    let options := options self in
    let prepared :=
      (let timeout := default PNone (options !! «"request_timeout"») in
       auth_type ← item options «"auth_type"»;
       token_file_path ← item options «"token_file_path"»;
       token_load_fn ← item options «"token_load_fn"»;
       let http_options : gmap pystr value :=
         {[ «"request_timeout"» := (if truthy timeout then timeout else PInt 20);
            «"auth_type"» := auth_type;
            «"token_file_path"» := token_file_path;
            «"token_load_fn"» := token_load_fn ]} in
       openai_options ← _make_codex_options options;
       let request := openai_options ∪ {[ «"prompt"» := PStr prompt ]} in
       url ← item options «"endpoint_url"»;
       Ok (url, request, http_options)) in
    match prepared with
    | Ok (url, request, http_options) =>
        let '(response, w') := _openai_request self url request http_options w in
        (map_chunks (yielded response) (ending response), w')
    | Raise e => (fail e, w)
    end.

Definition request_image (self : provider) (prompt : pystr) : M (list value) :=
  pure (Raise (KnownError
                 «"OpenAI Codex provider does not support image generation"»)).

Definition __init__ (command_type : pystr) (raw_options : gmap pystr value)
  : M provider :=
  let config_varname := config_varname command_type in
  let raw_default_options :=
    if negb (str_eqb config_varname []) then vim_eval config_varname else ∅ in
  let merged_options := raw_options ∪ raw_default_options in
  options ← pure (_parse_raw_options merged_options);
  _ ← pure (_ensure_supported_command command_type);
  mret {| command_type := command_type; options := options |}.

End Provider.
End OpenAICodexProvider.

(** ** The specification's vocabulary

    Definitions that follow the words of the specification, to be compared
    with the provider's. *)

Module Spec.
Import OpenAICodexProvider.

(** The texts of the text-type content parts of a message, in order. *)
Definition text_parts (message : AIMessage) : list pystr :=
  flat_map (fun c => if bool_decide (part_type c = Some «"text"»)
                     then [default [] (part_text c)] else [])
           (default [] (content message)).

(** All text parts, newline-separated, trimmed. *)
Definition joined_text (message : AIMessage) : pystr :=
  strip (join newline (text_parts message)).

(** The same, of the parts that are not empty. *)
Definition nonempty_text (message : AIMessage) : pystr :=
  strip (join newline (List.filter (fun t => negb (str_eqb t []))
                                   (text_parts message))).

(** The label table, case by case. *)
Definition label_of_role (role : option pystr) : pystr :=
  if bool_decide (role = Some «"system"») then «"System"»
  else if bool_decide (role = Some «"user"») then «"User"»
  else if bool_decide (role = Some «"assistant"») then «"Assistant"»
  else if bool_decide (role = Some «"tool"») then «"Tool"»
  else «"User"».

(** The block of a label and a text. *)
Definition block (turn : pystr * pystr) : pystr :=
  turn.1 ++ «"::"» ++ [10%N] ++ turn.2.

(** The surviving messages, as label and text, for a given reading of
    the text of a message. *)
Definition turns (text_of : AIMessage -> pystr) (messages : list AIMessage)
  : list (pystr * pystr) :=
  omap (fun m => if str_eqb (text_of m) [] then None
                 else Some (label_of_role (role m), text_of m)) messages.

(** The trailing marker is due: no turn, or the last one is not the
    assistant's. *)
Definition open_turn (ts : list (pystr * pystr)) : Prop :=
  match last ts with
  | None => True
  | Some (label, _) => label <> «"Assistant"»
  end.

(** The labels of the table. *)
Definition labels : list pystr := [«"System"»; «"User"»; «"Assistant"»; «"Tool"»].

Definition marker : pystr := «"Assistant::"».
Definition blank_line : pystr := [10%N; 10%N].

Section WithPython.
Context `{Python}.

(** The converter [_parse_raw_options] applies to a key, if any. *)
Definition converter_of (name : pystr) : option (pystr -> exn + value) :=
  (list_to_map converters : gmap pystr (pystr -> exn + value)) !! name.

(** What converting leaves at a key: a non-empty text is replaced by its
    conversion, anything else stays. *)
Definition converted (conv : pystr -> exn + value) (old new : option value)
  : Prop :=
  match old with
  | Some (PStr text) =>
      if str_eqb text [] then new = old
      else exists v, conv text = inr v /\ new = Some v
  | _ => new = old
  end.

(** The target types of normalisation. *)
Inductive target : Type :=
| to_float | to_integer | to_boolean | to_string | to_json.

(** The recognized keys and what each is coerced to. *)
Definition targets : list (pystr * target) :=
  [ («"request_timeout"», to_float);
    («"temperature"», to_float);
    («"max_tokens"», to_integer);
    («"top_p"», to_float);
    («"presence_penalty"», to_float);
    («"frequency_penalty"», to_float);
    («"best_of"», to_integer);
    («"n"», to_integer);
    («"stream"», to_boolean);
    («"logprobs"», to_integer);
    («"suffix"», to_string);
    («"stop"», to_json);
    («"logit_bias"», to_json) ].

Definition target_of (name : pystr) : option target :=
  (list_to_map targets : gmap pystr target) !! name.

(** The coercion of a text to a target: the float or the integer it
    reads as, whether the integer it reads as is not zero, the text
    itself, the JSON value it denotes; or the exception of the reading. *)
Definition coerce (t : target) (text : pystr) : exn + value :=
  match t with
  | to_float =>
      match py_float text with inr f => inr (PFloat f) | inl e => inl e end
  | to_integer =>
      match py_int text with inr z => inr (PInt z) | inl e => inl e end
  | to_boolean =>
      match py_int text with
      | inr z => inr (PBool (if Z.eq_dec z 0 then false else true))
      | inl e => inl e
      end
  | to_string => inr (PStr text)
  | to_json => json_loads text
  end.

(** A value is of a target type; any JSON value is of the last. *)
Definition of_target (t : target) (v : value) : Prop :=
  match t with
  | to_float => exists f, v = PFloat f
  | to_integer => exists z, v = PInt z
  | to_boolean => exists b, v = PBool b
  | to_string => exists text, v = PStr text
  | to_json => True
  end.

(** The message of a ConfigurationError: the key, the raw value, the cause. *)
Definition invalid_value (name raw error : pystr) : pystr :=
  «"Invalid value for option '"» ++ name ++ «"': "» ++ raw ++ «". Error: "» ++ error.

Definition ConfigurationError (e : exn) : Prop :=
  exists name raw error, raw <> [] /\ e = KnownError (invalid_value name raw error).

(** What normalisation raises when the conversion of [raw] at [name]
    raises [e]: the ConfigurationError with the message of [e] when [e] is
    a [ValueError], a [TypeError] or a [json.JSONDecodeError], and [e]
    itself otherwise. *)
Definition wrapped (name raw : pystr) (e : exn) : exn :=
  match e with
  | ValueError error | TypeError error | JSONDecodeError error =>
      KnownError (invalid_value name raw error)
  | _ => e
  end.

Definition unsupported_command : exn :=
  KnownError «"OpenAI Codex provider supports only :AI and :AIEdit commands"».
Definition unsupported_image : exn :=
  KnownError «"OpenAI Codex provider does not support image generation"».

Definition CapabilityError (e : exn) : Prop :=
  e = unsupported_command \/ e = unsupported_image.

(** What the loop of the request builder keeps of a key. *)
Definition kept (options : gmap pystr value) (key : pystr) : option value :=
  match options !! key with
  | Some v =>
      if in_empty_or_none v then None
      else if bool_decide (key ∈ count_like) && eq_zero v then None
      else Some v
  | None => None
  end.

(** The count-like options hold no float and no boolean: where they are
    numbers, they are integers, the type they are normalised to.  (The
    comparison [value == 0] of the request builder also holds of [0.0]
    and [False].) *)
Definition integer_counts (options : gmap pystr value) : Prop :=
  forall key v, key ∈ count_like -> options !! key = Some v ->
    match v with PFloat _ | PBool _ => False | _ => True end.

(** The payloads of the data lines of a streamed body: the lines with
    the prefix, without it and trimmed, the end marker left out. *)
Definition data_payloads (lines : list pystr) : list pystr :=
  List.filter (fun payload => negb (str_eqb payload «"[DONE]"»))
    (map (fun line => strip (drop (length «"data: "») line))
       (List.filter (fun line => startswith line «"data: "») lines)).

(** The events of a list of payloads: each one parsed, up to the first
    that is not JSON. *)
Fixpoint parse_each (payloads : list pystr) : run value :=
  match payloads with
  | [] => stop
  | payload :: rest =>
      match json_loads payload with
      | inr event => yield event (parse_each rest)
      | inl e => fail e
      end
  end.

(** The body of the non-streaming example. *)
Definition hello_body : pystr := jlit "{'choices':[{'text':'Hello there'}]}".

(** [parses payloads events]: each payload is the JSON text of the event
    at its place. *)
Definition parses (payloads : list pystr) (events : list value) : Prop :=
  Forall2 (fun payload event => json_loads payload = inr event) payloads events.

(** A ResponseEvent and the text of its first choice: the empty string
    when [choices] is absent or empty, or the choice has no [text]. *)
Inductive event_text : value -> pystr -> Prop :=
| no_choices items :
    items_get items «"choices"» = None -> event_text (PDict items) []
| empty_choices items :
    items_get items «"choices"» = Some (PList []) -> event_text (PDict items) []
| no_text items choice rest :
    items_get items «"choices"» = Some (PList (PDict choice :: rest)) ->
    items_get choice «"text"» = None ->
    event_text (PDict items) []
| some_text items choice rest text :
    items_get items «"choices"» = Some (PList (PDict choice :: rest)) ->
    items_get choice «"text"» = Some (PStr text) ->
    event_text (PDict items) text.

Definition assistant_chunk (text : pystr) : AIResponseChunk :=
  {| chunk_type := «"assistant"»; chunk_content := PStr text |}.

(** The two headers every request carries. *)
Definition base_headers : gmap pystr pystr :=
  {[ «"Content-Type"» := «"application/json"»; «"User-Agent"» := «"VimAI"» ]}.

(** The authentication headers of a mode, the second segment of the
    credential sent whenever there is one. *)
Definition auth_headers_as_stated (mode : value) (credential : pystr)
  : gmap pystr pystr :=
  let segments := split comma (strip credential) in
  if eq_str mode «"bearer"» then
    match segments with
    | key :: org :: _ =>
        {[ «"Authorization"» := «"Bearer "» ++ strip key;
           «"OpenAI-Organization"» := strip org ]}
    | key :: [] => {[ «"Authorization"» := «"Bearer "» ++ strip key ]}
    | [] => ∅
    end
  else if eq_str mode «"api-key"» then
    match segments with
    | key :: _ => {[ «"api-key"» := strip key ]}
    | [] => ∅
    end
  else ∅.

(** The same, the second segment sent only when something is left of it
    once trimmed. *)
Definition auth_headers (mode : value) (credential : pystr)
  : gmap pystr pystr :=
  let segments := split comma (strip credential) in
  if eq_str mode «"bearer"» then
    match segments with
    | key :: org :: _ =>
        if str_eqb (strip org) [] then {[ «"Authorization"» := «"Bearer "» ++ strip key ]}
        else {[ «"Authorization"» := «"Bearer "» ++ strip key;
                «"OpenAI-Organization"» := strip org ]}
    | key :: [] => {[ «"Authorization"» := «"Bearer "» ++ strip key ]}
    | [] => ∅
    end
  else if eq_str mode «"api-key"» then
    match segments with
    | key :: _ => {[ «"api-key"» := strip key ]}
    | [] => ∅
    end
  else ∅.

End WithPython.

End Spec.

(** ** Test doubles

    The doubles of the repository's tests (tests/mocks/vim.py and the
    [DummyUtils] of tests/openai_codex_provider_test.py), with an
    interpreter that knows just enough for them: decimal ASCII integers,
    a few float literals and JSON documents, ASCII bytes. *)

Module Mocks.

Definition digit (c : N) : option Z :=
  if ((48 <=? c) && (c <=? 57))%N then Some (Z.of_N c - 48) else None.

Fixpoint digits (acc : Z) (s : pystr) : option Z :=
  match s with
  | [] => Some acc
  | c :: s' => d ← digit c; digits (10 * acc + d) s'
  end.

Definition int_error (x : pystr) : pystr :=
  «"invalid literal for int() with base 10: '"» ++ x ++ «"'"».

(** [int(x)] on text: optional sign and decimal digits, blanks around. *)
Definition int (x : pystr) : exn + Z :=
  let unsigned (s : pystr) : option Z :=
    match s with [] => None | _ => digits 0 s end in
  let parsed :=
    match strip x with
    | 45%N :: s => Z.opp <$> unsigned s
    | 43%N :: s => unsigned s
    | s => unsigned s
    end in
  match parsed with
  | Some z => inr z
  | None => inl (ValueError (int_error x))
  end.

(** Floats are binary fractions; 0.2 is the nearest of them. *)
Definition float_0_2 : Q := 3602879701896397 # 18014398509481984.

Definition float_literals : list (pystr * Q) :=
  [ («"0"», 0 # 1); («"0.0"», 0 # 1); («"0.2"», float_0_2); («"0.5"», 1 # 2);
    («"1"», 1 # 1); («"20"», 20 # 1) ].

Definition float_error (x : pystr) : pystr :=
  «"could not convert string to float: '"» ++ x ++ «"'"».

Definition float_of_text (x : pystr) : exn + Q :=
  match list_find (fun e => e.1 = x) float_literals with
  | Some (_, (_, f)) => inr f
  | None => inl (ValueError (float_error x))
  end.

Definition json_documents : list (pystr * pyval Q) :=
  [ (jlit "{'choices':[{'text':'Hello there'}]}", choices_with_text «"Hello there"»);
    (jlit "{'choices':[{'text':'Hi'}]}", choices_with_text «"Hi"»);
    (jlit "{'choices':[{'text':''}]}", choices_with_text []);
    («"{}"», PDict []);
    (jlit "['\n']", PList [PStr [10%N]]) ].

(** Five thousand opening brackets: more nesting than the interpreter
    follows. *)
Definition deeply_nested : pystr := repeat 91%N 5000.

Definition loads (x : pystr) : exn + pyval Q :=
  match list_find (fun e => e.1 = x) json_documents with
  | Some (_, (_, v)) => inr v
  | None =>
      if str_eqb x deeply_nested
      then inl (RecursionError «"maximum recursion depth exceeded while decoding a JSON array from a unicode string"»)
      else inl (JSONDecodeError «"Expecting value: line 1 column 1 (char 0)"»)
  end.

(** The scheme of a URL, as [urllib] splits it off: the characters before
    the first colon, none of them a slash, and at least one. *)
Fixpoint scheme (seen : pystr) (url : pystr) : option pystr :=
  match url with
  | [] => None
  | c :: url' =>
      if (c =? 58)%N then (if str_eqb seen [] then None else Some seen)
      else if (c =? 47)%N then None
      else scheme (seen ++ [c]) url'
  end.

(** [urllib.request.Request] on a URL: no request without a scheme. *)
Definition new_request (url : pyval Q) : outcome unit :=
  match url with
  | PStr text =>
      match scheme [] (strip text) with
      | Some _ => Ok tt
      | None => Raise (ValueError («"unknown url type: '"» ++ strip text ++ «"'"»))
      end
  | _ => Raise (ValueError «"unknown url type"»)
  end.

Definition decode (bytes : list N) : pystr + pystr :=
  if forallb (fun b => b <? 128)%N bytes then inr bytes
  else inl «"'utf-8' codec can't decode byte"».

Definition decode_lossy (bytes : list N) : pystr :=
  map (fun b => if (b <? 128)%N then b else 65533%N) bytes.

Definition python : Python := {|
  float := Q;
  float_is_zero := fun f => (Qnum f =? 0);
  py_int := int;
  py_float := float_of_text;
  json_loads := loads;
  decode_strict := decode;
  decode_replace := decode_lossy;
|}.

(** tests/mocks/vim.py *)
Definition _CODEX_DEFAULTS : gmap pystr (pyval Q) :=
  list_to_map
    [ («"model"», PStr «"code-davinci-002"»);
      («"endpoint_url"», PStr «"https://api.openai.com/v1/completions"»);
      («"suffix"», PStr []);
      («"max_tokens"», PInt 256);
      («"temperature"», PFloat float_0_2);
      («"top_p"», PStr []);
      («"n"», PInt 1);
      («"stream"», PInt 1);
      («"logprobs"», PInt 0);
      («"stop"», PStr []);
      («"presence_penalty"», PInt 0);
      («"frequency_penalty"», PInt 0);
      («"best_of"», PInt 1);
      («"logit_bias"», PStr []);
      («"request_timeout"», PInt 20);
      («"auth_type"», PStr «"bearer"»);
      («"token_file_path"», PStr []);
      («"token_load_fn"», PStr []) ].

(** [eval], on the names whose value is a dictionary. *)
Definition eval (cmd : pystr) : gmap pystr (pyval Q) :=
  if str_eqb cmd «"g:vim_ai_openai_codex_complete"» then _CODEX_DEFAULTS
  else if str_eqb cmd «"g:vim_ai_openai_codex_edit"» then _CODEX_DEFAULTS
  else ∅.

(** A host whose credential store holds [credential] and whose server
    answers every call with [reply]. *)
Definition host (credential : pystr) (reply : outcome http_response)
  : @Host python :=
  @Build_Host python eval (fun _ _ _ => Ok credential)
    (fun url _ _ _ => new_request url) (fun _ => reply) (fun _ => None).

(** The bytes of an ASCII line. *)
Definition line (s : pystr) : list N := s ++ [10%N].

End Mocks.

(** ** Sample inputs *)

Module Samples.
Import OpenAICodexProvider.

Definition text_part (text : pystr) : AIMessageContent :=
  {| part_type := Some «"text"»; part_text := Some text |}.

(** [_make_messages()] of tests/openai_codex_provider_test.py *)
Definition _make_messages : list AIMessage :=
  [ {| role := Some «"system"»;
       content := Some [text_part «"You are a helpful assistant."»] |};
    {| role := Some «"user"»; content := Some [text_part «"Say hi"»] |} ].

(** A user message with an empty text part between two others. *)
Definition gapped_message : AIMessage :=
  {| role := Some «"user"»;
     content := Some [text_part «"a"»; text_part []; text_part «"b"»] |}.

(** A credential that ends in a comma: its second segment is empty. *)
Definition key_and_comma : pystr := «"sk-test,"».

Definition no_calls : @world Mocks.python := {| http_calls := [] |}.

(** The streamed body of the example: one event, a comment, the end. *)
Definition hi_stream : http_response :=
  {| body_lines := [ Mocks.line (jlit "data: {'choices':[{'text':'Hi'}]}");
                     Mocks.line «": keep-alive"»;
                     Mocks.line «"data: [DONE]"» ] |}.

(** A server that is never reached. *)
Definition unreachable : outcome http_response := Raise (TransportError []).

Definition bearer_options : gmap pystr (pyval Q) :=
  {[ «"auth_type"» := PStr «"bearer"» ]}.

Definition endpoint : pyval Q := PStr «"https://api.openai.com/v1/completions"».

(** The provider the test doubles give for [complete] and no options. *)
Definition default_provider : @OpenAICodexProvider.provider Mocks.python :=
  @OpenAICodexProvider.Build_provider Mocks.python «"complete"» Mocks._CODEX_DEFAULTS.

(** A [stop] of five thousand opening brackets. *)
Definition deep_stop : gmap pystr (pyval Q) :=
  {[ «"stop"» := PStr Mocks.deeply_nested ]}.

(** A [max_tokens] that is no number. *)
Definition bad_max_tokens : gmap pystr (pyval Q) :=
  {[ «"max_tokens"» := PStr «"abc"» ]}.

Definition stream_as_text : gmap pystr (pyval Q) :=
  {[ «"stream"» := PStr «"0"»; «"model"» := PStr «"code-davinci-002"» ]}.

End Samples.

(** ** Further vocabulary *)

Module More.
Import OpenAICodexProvider.

(** The options [request] reads with [options[key]], in the order it
    reads them. *)
Definition required_options : list pystr :=
  [ «"auth_type"»; «"token_file_path"»; «"token_load_fn"»; «"model"»;
    «"endpoint_url"» ].

Section WithPython.
Context `{Python}.

(** A call of [_convert_option] that does not raise: the entry of its
    key, if a non-empty text, converts. *)
Definition converts (opts : gmap pystr value)
    (entry : pystr * (pystr -> exn + value)) : Prop :=
  forall text, opts !! entry.1 = Some (PStr text) -> text <> [] ->
               exists v, entry.2 text = inr v.

(** A line the decoder passes over: no prefix, or the end marker. *)
Definition passed_over (line_bytes : list N) : Prop :=
  startswith (decode_replace line_bytes) resp_data_prefix = false
  \/ strip (drop (length resp_data_prefix) (decode_replace line_bytes)) = resp_done.

End WithPython.

(** Two options that are no numbers; [temperature] is converted first. *)
Definition two_bad_options : gmap pystr (pyval Q) :=
  {[ «"max_tokens"» := PStr «"abc"»; «"temperature"» := PStr «"hot"» ]}.

(** A count given as the text 0. *)
Definition zero_n : gmap pystr (pyval Q) :=
  {[ «"n"» := PStr «"0"»; «"model"» := PStr «"code-davinci-002"» ]}.

Definition zero_n_normalised : gmap pystr (pyval Q) :=
  {[ «"n"» := PInt 0; «"model"» := PStr «"code-davinci-002"» ]}.

Definition stream_normalised : gmap pystr (pyval Q) :=
  {[ «"stream"» := PBool false; «"model"» := PStr «"code-davinci-002"» ]}.

(** Options with a mode that needs no credential. *)
Definition open_options : gmap pystr (pyval Q) :=
  {[ «"auth_type"» := PStr «"none"» ]}.

(** A provider without options. *)
Definition bare_provider : @provider Mocks.python :=
  @Build_provider Mocks.python «"complete"» ∅.

End More.

(** * Properties *)

Section Text.

Lemma join_snoc (sep : pystr) (parts : list pystr) (p : pystr) :
  parts <> [] -> join sep (parts ++ [p]) = join sep parts ++ sep ++ p.
Proof.
  induction parts as [|q parts IH]; [done|]. intros _.
  destruct parts as [|q' parts]; [done|].
  change (join sep ((q :: q' :: parts) ++ [p]))
    with (q ++ sep ++ join sep ((q' :: parts) ++ [p])).
  rewrite IH by done.
  change (join sep (q :: q' :: parts)) with (q ++ sep ++ join sep (q' :: parts)).
  by rewrite <- !app_assoc.
Qed.

End Text.

Section PromptCompiler.
Import OpenAICodexProvider Spec.

#[local] Arguments startswith : simpl never.
#[local] Arguments block : simpl never.

Lemma message_text_nonempty (m : AIMessage) : message_text m = nonempty_text m.
Proof.
  unfold message_text, nonempty_text, text_parts. do 2 f_equal.
  induction (default [] (content m)) as [|c cs IH]; simpl; [done|].
  destruct (bool_decide (part_type c = Some «"text"»)); simpl; [|done].
  by rewrite IH.
Qed.

Lemma role_label (r : option pystr) :
  default «"User"» (role_labels !! default «"user"» r) = label_of_role r.
Proof.
  unfold label_of_role.
  repeat case_bool_decide; subst; try reflexivity.
  destruct r as [x|]; [|reflexivity]. simpl.
  assert (role_labels !! x = None) as ->; [|done].
  apply not_elem_of_list_to_map_1. simpl.
  rewrite !elem_of_cons, elem_of_nil.
  intros [->|[->|[->|[->|[]]]]]; congruence.
Qed.

Lemma label_of_role_labels (r : option pystr) : label_of_role r ∈ labels.
Proof.
  unfold label_of_role, labels. repeat case_bool_decide; set_solver.
Qed.


Lemma add_message_turn (parts : list pystr) (m : AIMessage) :
  add_message parts m = parts ++ map block (turns nonempty_text [m]).
Proof.
  unfold add_message, turns. simpl.
  rewrite message_text_nonempty, role_label.
  destruct (str_eqb (nonempty_text m) []); simpl; [by rewrite app_nil_r|done].
Qed.

Lemma turns_app text_of (ms ms' : list AIMessage) :
  turns text_of (ms ++ ms') = turns text_of ms ++ turns text_of ms'.
Proof. apply omap_app. Qed.

Lemma fold_add_message (ms : list AIMessage) (parts : list pystr) :
  fold_left add_message ms parts = parts ++ map block (turns nonempty_text ms).
Proof.
  revert parts. induction ms as [|m ms IH]; intros parts.
  - by rewrite app_nil_r.
  - change (m :: ms) with ([m] ++ ms). rewrite turns_app, map_app, app_assoc.
    simpl. by rewrite IH, add_message_turn.
Qed.

Lemma turns_labels text_of (ms : list AIMessage) :
  Forall (fun t => t.1 ∈ labels) (turns text_of ms).
Proof.
  induction ms as [|m ms IH]; [constructor|].
  unfold turns. simpl. destruct (str_eqb _ _); simpl; [done|].
  constructor; [apply label_of_role_labels|done].
Qed.

Lemma block_startswith_marker (label text : pystr) :
  label ∈ labels ->
  startswith (block (label, text)) marker = bool_decide (label = «"Assistant"»).
Proof.
  unfold labels. rewrite !elem_of_cons, elem_of_nil.
  intros [->|[->|[->|[->|[]]]]]; reflexivity.
Qed.

Lemma block_not_marker (label text : pystr) :
  label ∈ labels -> block (label, text) <> marker.
Proof.
  unfold labels. rewrite !elem_of_cons, elem_of_nil.
  intros [->|[->|[->|[->|[]]]]]; discriminate.
Qed.

Lemma prompt_parts_turns (messages : list AIMessage) :
  prompt_parts messages =
    match last (turns nonempty_text messages) with
    | None => [marker]
    | Some (label, _) =>
        if bool_decide (label = «"Assistant"»)
        then map block (turns nonempty_text messages)
        else map block (turns nonempty_text messages) ++ [marker]
    end.
Proof.
  unfold prompt_parts. rewrite fold_add_message. cbv zeta. rewrite app_nil_l.
  pose proof (turns_labels nonempty_text messages) as Hl.
  change (map block ?l) with (block <$> l). rewrite fmap_last.
  destruct (last (turns nonempty_text messages)) as [[label text]|] eqn:Hlast; simpl.
  - apply last_Some in Hlast as [ts Hts]. rewrite Hts in Hl.
    apply Forall_app in Hl as [_ Hl%Forall_inv].
    change «"Assistant::"» with marker.
    rewrite block_startswith_marker by done.
    by destruct (bool_decide (label = «"Assistant"»)).
  - apply last_None in Hlast. by rewrite Hlast.
Qed.

(** C2.  The prompt returned is the blocks of the surviving messages
    joined by blank lines, followed by the bare marker [Assistant::] as
    one more block exactly when there is no surviving message or the
    label of the last one is not [Assistant]: with the marker in that
    case, without it, so that nothing is added after an assistant's turn,
    in the other.  The same holds of the parts the prompt is joined from,
    whose last part is the bare marker under the same condition.  When the
    marker is added, the prompt is the marker alone or ends with a blank
    line and the marker. *)
Theorem trailing_marker_iff_open_turn (messages : list AIMessage) :
  let ts := turns nonempty_text messages in
  (open_turn ts ->
   prompt_parts messages = map block ts ++ [marker]
   /\ _messages_to_prompt messages = join blank_line (map block ts ++ [marker]))
  /\ (~ open_turn ts ->
      prompt_parts messages = map block ts
      /\ _messages_to_prompt messages = join blank_line (map block ts))
  /\ (last (prompt_parts messages) = Some marker <-> open_turn ts)
  /\ (open_turn ts ->
      _messages_to_prompt messages = marker
      \/ _messages_to_prompt messages
         = join blank_line (map block ts) ++ blank_line ++ marker).
Proof.
  intros ts.
  assert (open_turn ts -> prompt_parts messages = map block ts ++ [marker])
    as Hopen.
  { rewrite prompt_parts_turns. unfold open_turn. fold ts.
    destruct (last ts) as [[label text]|] eqn:Hlast.
    - intros Hlabel. by rewrite bool_decide_eq_false_2.
    - intros _. apply last_None in Hlast. by rewrite Hlast. }
  assert (~ open_turn ts -> prompt_parts messages = map block ts) as Hclosed.
  { rewrite prompt_parts_turns. unfold open_turn. fold ts.
    destruct (last ts) as [[label text]|]; [|tauto].
    case_bool_decide; tauto. }
  assert (_messages_to_prompt messages = join blank_line (prompt_parts messages))
    as Hjoin by reflexivity.
  split; [|split; [|split]].
  - intros Ho. split; [by apply Hopen|]. by rewrite Hjoin, (Hopen Ho).
  - intros Hc. split; [by apply Hclosed|]. by rewrite Hjoin, (Hclosed Hc).
  - pose proof (turns_labels nonempty_text messages) as Hl. fold ts in Hl.
    split.
    + rewrite prompt_parts_turns. unfold open_turn. fold ts.
      destruct (last ts) as [[label text]|] eqn:Hlast; [|done].
      case_bool_decide as Ha; [|done].
      change (map block ts) with (block <$> ts). rewrite fmap_last, Hlast.
      intros [= Hb]. exfalso. revert Hb. apply block_not_marker.
      apply last_Some in Hlast as [ts' Hts]. rewrite Hts in Hl.
      by apply Forall_app in Hl as [_ Hl%Forall_inv].
    + intros Ho. rewrite (Hopen Ho). apply last_snoc.
  - intros Ho. rewrite Hjoin, (Hopen Ho).
    destruct ts as [|t ts']; [by left|right].
    by apply join_snoc.
Qed.


Lemma filter_nonempty_id (texts : list pystr) :
  Forall (fun t => t <> []) texts ->
  List.filter (fun t => negb (str_eqb t [])) texts = texts.
Proof.
  induction 1 as [|t texts Ht _ IH]; simpl; [done|].
  unfold str_eqb at 1. rewrite bool_decide_eq_false_2 by done. simpl.
  by rewrite IH.
Qed.

(** C5, amended.  The prompt is the blocks of the surviving messages,
    joined by a blank line, with at most the bare marker after them.  The
    block of a message is its label, [::], a newline and its text; the
    label follows the table, [User] for any other or absent role; the text
    is its non-empty text-type parts, newline-separated and trimmed, and a
    message whose text is empty is skipped.  Where no text-type part is
    empty, that text is all the text-type parts, newline-separated and
    trimmed. *)
Theorem prompt_is_blocks_of_nonempty_parts (messages : list AIMessage) :
  (exists trailing,
      (trailing = [] \/ trailing = [marker])
      /\ _messages_to_prompt messages =
           join blank_line (map block (turns nonempty_text messages) ++ trailing))
  /\ (forall m, Forall (fun t => t <> []) (text_parts m) ->
                nonempty_text m = joined_text m).
Proof.
  split.
  - unfold _messages_to_prompt. rewrite prompt_parts_turns.
    change (newline ++ newline) with blank_line.
    destruct (last (turns nonempty_text messages)) as [[label text]|] eqn:Hlast.
    + case_bool_decide.
      * exists []. split; [by left|]. by rewrite app_nil_r.
      * exists [marker]. split; [by right|done].
    + apply last_None in Hlast. rewrite Hlast. exists [marker]. by split; [right|].
  - intros m Hm. unfold nonempty_text, joined_text.
    by rewrite filter_nonempty_id.
Qed.

Lemma gapped_message_texts :
  message_text Samples.gapped_message = [97; 10; 98]%N
  /\ joined_text Samples.gapped_message = [97; 10; 10; 98]%N.
Proof. split; reflexivity. Qed.

(** C5 as stated fails: an empty text part is dropped, not joined. *)
Lemma prompt_is_not_blocks_of_all_parts :
  ~ (exists trailing,
        _messages_to_prompt [Samples.gapped_message] =
          join blank_line (map block (turns joined_text [Samples.gapped_message])
                           ++ trailing)).
Proof.
  intros [trailing H]. vm_compute in H.
  destruct trailing as [|t ts]; discriminate H.
Qed.
End PromptCompiler.

(** ** The option normaliser *)

Section Options.
Context `{Python}.
Import OpenAICodexProvider Spec.

Lemma convert_option_ok (name : pystr) (conv : pystr -> exn + value) (opts opts' : gmap pystr value) :
  _convert_option name conv opts = Ok opts' ->
  converted conv (opts !! name) (opts' !! name)
  /\ forall key, key <> name -> opts' !! key = opts !! key.
Proof.
  unfold _convert_option, converted.
  destruct (opts !! name) as [[| | | |text| |]|] eqn:Hname;
    try (intros [= <-]; by rewrite Hname).
  destruct (str_eqb text []); simpl; [intros [= <-]; by rewrite Hname|].
  destruct (conv text) as [err|v]; [by destruct err|]. intros [= <-]. split.
  - exists v. by rewrite lookup_insert_eq.
  - intros key Hkey. by rewrite lookup_insert_ne.
Qed.

Lemma convert_option_raise (name : pystr) (conv : pystr -> exn + value) (opts : gmap pystr value) e :
  _convert_option name conv opts = Raise e ->
  exists text err,
    opts !! name = Some (PStr text) /\ text <> [] /\ conv text = inl err
    /\ e = wrapped name text err.
Proof.
  unfold _convert_option.
  destruct (opts !! name) as [[| | | |text| |]|]; try done.
  unfold str_eqb. case_bool_decide as Htext; simpl; [done|].
  destruct (conv text) as [err|v] eqn:Hconv; [|done].
  intros Hraise. exists text, err. split; [done|]. split; [done|]. split; [done|].
  destruct err; by injection Hraise as <-.
Qed.

Lemma convert_all_ok (cs : list (pystr * (pystr -> exn + value))) (opts opts' : gmap pystr value) :
  NoDup cs.*1 ->
  convert_all cs opts = Ok opts' ->
  forall name,
    (forall conv, (name, conv) ∈ cs -> converted conv (opts !! name) (opts' !! name))
    /\ (name ∉ cs.*1 -> opts' !! name = opts !! name).
Proof.
  revert opts. induction cs as [|[name0 conv0] cs IH]; intros opts Hnd Hall name.
  - injection Hall as <-. split; [|done]. intros conv Hin. by apply elem_of_nil in Hin.
  - simpl in Hall. apply NoDup_cons in Hnd as [Hfresh Hnd].
    destruct (_convert_option name0 conv0 opts) as [opts1|e] eqn:Hone; [|done].
    simpl in Hall. apply convert_option_ok in Hone as [Hconv Hother].
    destruct (IH _ Hnd Hall name) as [IHin IHout].
    destruct (decide (name = name0)) as [->|Hne].
    + split.
      * intros conv Hin. apply elem_of_cons in Hin as [[= <-]|Hin].
        -- by rewrite IHout.
        -- exfalso. apply Hfresh. apply list_elem_of_fmap. by exists (name0, conv).
      * intros Hout. exfalso. apply Hout. simpl. left.
    + rewrite <- (Hother name Hne). split.
      * intros conv Hin. apply elem_of_cons in Hin as [[= -> _]|Hin]; [done|].
        by apply IHin.
      * intros Hout. apply IHout. intros Hin. apply Hout. simpl. by right.
Qed.

Lemma convert_all_raise (cs : list (pystr * (pystr -> exn + value))) (opts : gmap pystr value) e :
  NoDup cs.*1 ->
  convert_all cs opts = Raise e ->
  exists name conv text error,
    (name, conv) ∈ cs /\ opts !! name = Some (PStr text) /\ text <> []
    /\ conv text = inl error /\ e = wrapped name text error.
Proof.
  revert opts. induction cs as [|[name0 conv0] cs IH]; intros opts Hnd Hall; [done|].
  simpl in Hall. apply NoDup_cons in Hnd as [Hfresh Hnd].
  destruct (_convert_option name0 conv0 opts) as [opts1|e1] eqn:Hone; simpl in Hall.
  - apply convert_option_ok in Hone as [_ Hother].
    destruct (IH _ Hnd Hall) as (name & conv & text & error & Hin & Hname & Hrest).
    exists name, conv, text, error. split; [by right|]. split; [|done].
    rewrite <- Hother; [done|]. intros ->. apply Hfresh.
    apply list_elem_of_fmap. by exists (name0, conv).
  - injection Hall as <-.
    apply convert_option_raise in Hone as (text & error & Hname & Hrest).
    exists name0, conv0, text, error. split; [left|done].
Qed.

Lemma converters_NoDup : NoDup converters.*1.
Proof. apply (bool_decide_unpack _). by vm_compute. Qed.

Lemma converter_of_elem (name : pystr) (conv : pystr -> exn + value) :
  converter_of name = Some conv <-> (name, conv) ∈ converters.
Proof.
  unfold converter_of. symmetry. apply elem_of_list_to_map, converters_NoDup.
Qed.

Lemma converter_of_None (name : pystr) :
  converter_of name = None <-> name ∉ converters.*1.
Proof. unfold converter_of. symmetry. apply not_elem_of_list_to_map. Qed.

Lemma normalise_entries (raw_options : gmap pystr value) :
  match _parse_raw_options raw_options with
  | Ok options =>
      forall name,
        match converter_of name, raw_options !! name with
        | Some conv, Some (PStr text) =>
            if str_eqb text [] then options !! name = Some (PStr text)
            else exists v, conv text = inr v /\ options !! name = Some v
        | _, unchanged => options !! name = unchanged
        end
  | Raise e =>
      exists name conv text error,
        converter_of name = Some conv
        /\ raw_options !! name = Some (PStr text) /\ text <> []
        /\ conv text = inl error
        /\ e = wrapped name text error
  end.
Proof.
  unfold _parse_raw_options.
  destruct (convert_all converters raw_options) as [options|e] eqn:Hall.
  - intros name.
    destruct (convert_all_ok _ _ _ converters_NoDup Hall name) as [Hin Hout].
    destruct (converter_of name) as [conv|] eqn:Hconv.
    + apply converter_of_elem in Hconv. specialize (Hin _ Hconv).
      unfold converted in Hin.
      by destruct (raw_options !! name) as [[| | | |text| |]|].
    + apply converter_of_None in Hconv. by apply Hout.
  - destruct (convert_all_raise _ _ _ converters_NoDup Hall)
      as (name & conv & text & error & Hin & Hrest).
    exists name, conv, text, error. split; [|done]. by apply converter_of_elem.
Qed.


(** The table of conversions, key by key. *)
Lemma converter_table :
  converter_of «"request_timeout"» = Some conv_float
  /\ converter_of «"temperature"» = Some conv_float
  /\ converter_of «"max_tokens"» = Some conv_int
  /\ converter_of «"top_p"» = Some conv_float
  /\ converter_of «"presence_penalty"» = Some conv_float
  /\ converter_of «"frequency_penalty"» = Some conv_float
  /\ converter_of «"best_of"» = Some conv_int
  /\ converter_of «"n"» = Some conv_int
  /\ converter_of «"stream"» = Some conv_bool
  /\ converter_of «"logprobs"» = Some conv_int
  /\ converter_of «"suffix"» = Some conv_str
  /\ converter_of «"stop"» = Some json_loads
  /\ converter_of «"logit_bias"» = Some json_loads.
Proof. repeat split; reflexivity. Qed.

Lemma converter_of_max_tokens : converter_of «"max_tokens"» = Some conv_int.
Proof. reflexivity. Qed.

Lemma converter_of_stop : converter_of «"stop"» = Some json_loads.
Proof. reflexivity. Qed.

Lemma converter_of_stream : converter_of «"stream"» = Some conv_bool.
Proof. reflexivity. Qed.

(** Normalising a single option. *)
Lemma normalise_singleton (name text : pystr) (conv : pystr -> exn + value) :
  converter_of name = Some conv -> text <> [] ->
  _parse_raw_options {[ name := PStr text ]} =
    match conv text with
    | inr v => Ok {[ name := v ]}
    | inl error => Raise (wrapped name text error)
    end.
Proof.
  intros Hname Htext.
  pose proof (normalise_entries {[ name := PStr text ]}) as Hn.
  destruct (_parse_raw_options _) as [options|e].
  - specialize (Hn name) as Hat. rewrite Hname, lookup_singleton_eq in Hat.
    unfold str_eqb in Hat. rewrite bool_decide_eq_false_2 in Hat by done.
    destruct Hat as (v & -> & Hv). f_equal. apply map_eq. intros key.
    destruct (decide (key = name)) as [->|Hkey].
    + by rewrite lookup_singleton_eq.
    + specialize (Hn key). rewrite !lookup_singleton_ne in * by done.
      by destruct (converter_of key).
  - destruct Hn as (name' & conv' & text' & error & Hconv & Hraw & _ & Herr & ->).
    apply lookup_singleton_Some in Hraw as [<- [= <-]].
    rewrite Hname in Hconv. injection Hconv as <-. by rewrite Herr.
Qed.


(** The converters of the provider are the coercions to the targets. *)
Lemma converters_coerce :
  Forall2 (fun (c : pystr * (pystr -> exn + value)) (t : pystr * target) =>
             c.1 = t.1 /\ forall text, c.2 text = coerce t.2 text)
          converters targets.
Proof.
  unfold converters, targets.
  repeat (constructor; [split; [reflexivity|intros text; cbn [snd coerce]]|]);
    try reflexivity; try constructor.
  unfold conv_bool. destruct (py_int text) as [e|z]; [done|].
  destruct (Z.eq_dec z 0) as [->|Hz]; [done|].
  by rewrite (proj2 (Z.eqb_neq z 0) Hz).
Qed.

Lemma lookup_coerce (cs : list (pystr * (pystr -> exn + value)))
    (ts : list (pystr * target)) (name : pystr) :
  Forall2 (fun (c : pystr * (pystr -> exn + value)) (t : pystr * target) =>
             c.1 = t.1 /\ forall text, c.2 text = coerce t.2 text) cs ts ->
  match (list_to_map cs : gmap pystr (pystr -> exn + value)) !! name,
        (list_to_map ts : gmap pystr target) !! name with
  | Some conv, Some t => forall text, conv text = coerce t text
  | None, None => True
  | _, _ => False
  end.
Proof.
  induction 1 as [|[n conv] [n' t] cs ts [Hn Hconv] _ IH]; [done|].
  cbn [fst snd] in Hn, Hconv. subst n'. cbn [list_to_map foldr uncurry fst snd].
  destruct (decide (n = name)) as [->|Hne].
  - by rewrite !lookup_insert_eq.
  - by rewrite !lookup_insert_ne.
Qed.

Lemma target_converter (name : pystr) :
  match converter_of name, target_of name with
  | Some conv, Some t => forall text, conv text = coerce t text
  | None, None => True
  | _, _ => False
  end.
Proof. apply lookup_coerce, converters_coerce. Qed.

Lemma coerce_of_target (t : target) (text : pystr) (v : value) :
  coerce t text = inr v -> of_target t v.
Proof.
  destruct t; cbn [coerce of_target]; [| | | |done].
  - destruct (py_float text); [done|]. intros [= <-]. by eexists.
  - destruct (py_int text); [done|]. intros [= <-]. by eexists.
  - destruct (py_int text); [done|]. intros [= <-]. by eexists.
  - intros [= <-]. by eexists.
Qed.

(** C4, amended.  Normalisation either returns a mapping in which every
    recognized key that held a non-empty text holds the coercion of that
    text to the target of the key (a float for [request_timeout],
    [temperature], [top_p] and the penalties, an integer for [max_tokens],
    [best_of], [n] and [logprobs], a boolean for [stream], the text for
    [suffix], the JSON value for [stop] and [logit_bias]), and every other
    entry (unrecognized key, not a string, the empty string) is as it
    was; or it raises, and then the coercion of the non-empty text of a
    recognized key did raise: a [ValueError], [TypeError] or
    [json.JSONDecodeError] is raised as the ConfigurationError naming the
    key and the raw text, any other exception as it is.  With [int]
    reading 256, the text 256 of [max_tokens] becomes the integer; with
    [json.loads] rejecting not-json, that text at [stop] raises the error
    naming [stop] and it. *)
Theorem parse_raw_options_coerces_to_targets (raw_options : gmap pystr value) :
  match _parse_raw_options raw_options with
  | Ok options =>
      forall name,
        match target_of name, raw_options !! name with
        | Some t, Some (PStr text) =>
            if str_eqb text [] then options !! name = Some (PStr text)
            else exists v, coerce t text = inr v /\ of_target t v
                           /\ options !! name = Some v
        | _, unchanged => options !! name = unchanged
        end
  | Raise e =>
      exists name t text error,
        target_of name = Some t
        /\ raw_options !! name = Some (PStr text) /\ text <> []
        /\ coerce t text = inl error
        /\ e = wrapped name text error
        /\ (forall msg, error = ValueError msg \/ error = TypeError msg
                        \/ error = JSONDecodeError msg ->
                        e = KnownError (invalid_value name text msg))
  end
  /\ (py_int «"256"» = inr 256 ->
      _parse_raw_options {[ «"max_tokens"» := PStr «"256"» ]}
      = Ok {[ «"max_tokens"» := PInt 256 ]})
  /\ (forall msg, json_loads «"not-json"» = inl (JSONDecodeError msg) ->
      _parse_raw_options {[ «"stop"» := PStr «"not-json"» ]}
      = Raise (KnownError (invalid_value «"stop"» «"not-json"» msg))).
Proof.
  split; [|split].
  - pose proof (normalise_entries raw_options) as Hn.
    destruct (_parse_raw_options raw_options) as [options|e].
    + intros name. specialize (Hn name). pose proof (target_converter name) as Ht.
      destruct (converter_of name) as [conv|], (target_of name) as [t|];
        try done.
      destruct (raw_options !! name) as [[| | | |text| |]|]; try done.
      destruct (str_eqb text []); [done|].
      destruct Hn as (v & Hv & Hopt). rewrite Ht in Hv.
      exists v. split; [done|]. split; [by eapply coerce_of_target|done].
    + destruct Hn as (name & conv & text & error & Hconv & Hraw & Htext & Herr & ->).
      pose proof (target_converter name) as Ht. rewrite Hconv in Ht.
      destruct (target_of name) as [t|] eqn:Htarget; [|done]. rewrite Ht in Herr.
      exists name, t, text, error.
      split; [done|]. split; [done|]. split; [done|]. split; [done|].
      split; [done|]. by intros msg [->|[->| ->]].
  - intros H256.
    rewrite (normalise_singleton _ _ _ converter_of_max_tokens) by done.
    unfold conv_int. by rewrite H256.
  - intros msg Hjson.
    rewrite (normalise_singleton _ _ _ converter_of_stop) by done.
    by rewrite Hjson.
Qed.

(** *** The request builder *)

Lemma add_option_lookup (options result : gmap pystr value) (key k : pystr) :
  add_option options result key !! k =
    if bool_decide (k = key) then from_option Some (result !! k) (kept options k)
    else result !! k.
Proof.
  unfold add_option, kept. destruct (decide (k = key)) as [->|Hk].
  - rewrite (bool_decide_eq_true_2 (key = key)) by done. destruct (options !! key) as [v|]; [|done].
    destruct (in_empty_or_none v); [done|].
    destruct (bool_decide (key ∈ count_like) && eq_zero v); [done|].
    by rewrite lookup_insert_eq.
  - rewrite (bool_decide_eq_false_2 (k = key)) by done.
    destruct (options !! key) as [v|]; [|done].
    destruct (in_empty_or_none v); [done|].
    destruct (bool_decide (key ∈ count_like) && eq_zero v); [done|].
    by rewrite lookup_insert_ne.
Qed.

Lemma fold_add_option_lookup (options : gmap pystr value) (keys : list pystr)
    (result : gmap pystr value) (k : pystr) :
  fold_left (add_option options) keys result !! k =
    if bool_decide (k ∈ keys) then from_option Some (result !! k) (kept options k)
    else result !! k.
Proof.
  revert result. induction keys as [|key keys IH]; intros result; cbn [fold_left].
  - rewrite bool_decide_eq_false_2; [done|apply not_elem_of_nil].
  - rewrite IH, add_option_lookup.
    destruct (decide (k = key)) as [->|Hk].
    + rewrite (bool_decide_eq_true_2 (key = key)) by done.
      rewrite (bool_decide_eq_true_2 (key ∈ key :: keys)) by left.
      destruct (kept options key); simpl; by case_bool_decide.
    + rewrite (bool_decide_eq_false_2 (k = key)) by done.
      rewrite (bool_decide_ext (k ∈ key :: keys) (k ∈ keys)); [done|].
      rewrite elem_of_cons. tauto.
Qed.


Lemma kept_Some (options : gmap pystr value) (key : pystr) (v : value) :
  integer_counts options ->
  kept options key = Some v <->
    options !! key = Some v /\ v <> PStr [] /\ v <> PNone
    /\ (key ∈ count_like -> v <> PInt 0).
Proof.
  intros Hint. unfold kept. split.
  - destruct (options !! key) as [v'|] eqn:Hkey; [|done].
    destruct (in_empty_or_none v') eqn:Hempty; [done|].
    destruct (bool_decide (key ∈ count_like) && eq_zero v') eqn:Hzero; [done|].
    intros [= ->]. split; [done|].
    split; [by intros ->|]. split; [by intros ->|].
    intros Hcount ->. by rewrite (bool_decide_eq_true_2 _ Hcount) in Hzero.
  - intros (Hkey & Hstr & Hnone & Hzero). rewrite Hkey.
    assert (in_empty_or_none v = false) as ->.
    { destruct v as [| | | |[|]| |]; done. }
    case_bool_decide as Hcount; [|done]. simpl.
    assert (eq_zero v = false) as ->; [|done].
    specialize (Hint _ _ Hcount Hkey). specialize (Hzero Hcount).
    destruct v as [| |z| | | |]; try done. simpl.
    apply Z.eqb_neq. by intros ->.
Qed.

Lemma option_keys_not_model (key : pystr) : key ∈ option_keys -> key <> «"model"».
Proof.
  intros Hkey ->. revert Hkey. apply (bool_decide_unpack _). by vm_compute.
Qed.

Lemma count_like_option_keys (key : pystr) : key ∈ count_like -> key ∈ option_keys.
Proof.
  unfold count_like, option_keys. rewrite !elem_of_cons, elem_of_nil.
  intros [->|[->|[->|[->|[]]]]]; tauto.
Qed.

Lemma make_codex_options_lookup (options : gmap pystr value) (model : value) :
  options !! «"model"» = Some model ->
  exists payload,
    _make_codex_options options = Ok payload
    /\ forall key, key ∈ option_keys -> payload !! key = kept options key.
Proof.
  intros Hmodel. unfold _make_codex_options. rewrite Hmodel.
  eexists. split; [done|]. intros key Hkey.
  rewrite fold_add_option_lookup, bool_decide_eq_true_2 by done.
  rewrite lookup_singleton_ne by (symmetry; by apply option_keys_not_model).
  by destruct (kept options key).
Qed.

(** C3.  For options with a model, whose count-like entries are integers
    where they are numbers, the payload is built, and it has an allowlisted
    key with a value exactly when the options have the key with that value,
    the value is neither the empty string nor None, and, for a count-like
    key, it is not the integer 0.  A count-like key at 0 is left out, at a
    positive integer it is kept, and [temperature] keeps 0. *)
Theorem make_codex_options_includes (options : gmap pystr value) (model : value) :
  options !! «"model"» = Some model ->
  integer_counts options ->
  exists payload,
    _make_codex_options options = Ok payload
    /\ (forall key v, key ∈ option_keys ->
          (payload !! key = Some v <->
             options !! key = Some v /\ v <> PStr [] /\ v <> PNone
             /\ (key ∈ count_like -> v <> PInt 0)))
    /\ (forall key, key ∈ count_like -> options !! key = Some (PInt 0) ->
          payload !! key = None)
    /\ (forall key z, key ∈ count_like -> 0 < z -> options !! key = Some (PInt z) ->
          payload !! key = Some (PInt z))
    /\ (options !! «"temperature"» = Some (PInt 0) ->
          payload !! «"temperature"» = Some (PInt 0)).
Proof.
  intros Hmodel Hint.
  destruct (make_codex_options_lookup _ _ Hmodel) as (payload & Hmake & Hkept).
  assert (forall key v, key ∈ option_keys ->
            (payload !! key = Some v <->
               options !! key = Some v /\ v <> PStr [] /\ v <> PNone
               /\ (key ∈ count_like -> v <> PInt 0))) as Hiff.
  { intros key v Hkey. rewrite (Hkept _ Hkey). by apply kept_Some. }
  exists payload. split; [done|]. split; [done|]. split; [|split].
  - intros key Hcount Hzero. apply count_like_option_keys in Hcount as Hkey.
    destruct (payload !! key) as [v|] eqn:Hv; [|done].
    apply Hiff in Hv as (Hv & _ & _ & Hnz); [|done].
    rewrite Hzero in Hv. injection Hv as <-. by destruct (Hnz Hcount).
  - intros key z Hcount Hz Hkey. apply Hiff; [by apply count_like_option_keys|].
    split; [done|]. split; [done|]. split; [done|]. intros _ [= ->]. lia.
  - intros Htemp. apply Hiff.
    + unfold option_keys. rewrite !elem_of_cons. tauto.
    + split; [done|]. split; [done|]. split; [done|].
      intros Hcount. exfalso. revert Hcount. apply (bool_decide_unpack _). by vm_compute.
Qed.

(** C10.  When the raw [stream] is the text 0 (which [int] reads as 0),
    the normalised [stream] is False, and the payload, built as soon as
    the model is there, has [stream] with the value False. *)
Theorem stream_zero_is_sent_as_false
    (raw_options options : gmap pystr value) (model : value) :
  raw_options !! «"stream"» = Some (PStr «"0"») ->
  py_int «"0"» = inr 0 ->
  _parse_raw_options raw_options = Ok options ->
  options !! «"model"» = Some model ->
  options !! «"stream"» = Some (PBool false)
  /\ exists payload,
       _make_codex_options options = Ok payload
       /\ payload !! «"stream"» = Some (PBool false).
Proof.
  intros Hraw Hzero Hparse Hmodel.
  pose proof (normalise_entries raw_options) as Hn. rewrite Hparse in Hn.
  specialize (Hn «"stream"»). rewrite converter_of_stream, Hraw in Hn.
  destruct Hn as (v & Hconv & Hstream).
  unfold conv_bool in Hconv. rewrite Hzero in Hconv. injection Hconv as <-.
  split; [done|].
  destruct (make_codex_options_lookup _ _ Hmodel) as (payload & Hmake & Hkept).
  exists payload. split; [done|]. rewrite Hkept.
  - unfold kept. by rewrite Hstream.
  - unfold option_keys. rewrite !elem_of_cons. tauto.
Qed.

End Options.

(** ** The decoder *)

Section Decoder.
Context `{Python}.
Import OpenAICodexProvider Spec.

Lemma read_stream_parse_each (lines : list (list N)) :
  read_stream lines = parse_each (data_payloads (map decode_replace lines)).
Proof.
  induction lines as [|line_bytes lines IH]; [done|].
  unfold data_payloads in *. cbn [read_stream map List.filter].
  change resp_data_prefix with «"data: "». change resp_done with «"[DONE]"».
  destruct (startswith (decode_replace line_bytes) «"data: "»); cbn [negb]; [|done].
  cbn [map List.filter].
  destruct (str_eqb _ «"[DONE]"»); cbn [negb]; [done|].
  cbn [parse_each]. by rewrite IH.
Qed.

Lemma parse_each_all (payloads : list pystr) (events : list value) :
  parses payloads events ->
  parse_each payloads = {| yielded := events; ending := None |}.
Proof.
  induction 1 as [|payload event payloads events Hp _ IH]; [done|].
  cbn [parse_each]. by rewrite Hp, IH.
Qed.

Lemma parse_each_until (good rest : list pystr) (bad : pystr) (e : exn)
    (events : list value) :
  parses good events ->
  json_loads bad = inl e ->
  parse_each (good ++ bad :: rest)
  = {| yielded := events; ending := Some e |}.
Proof.
  intros Hgood Hbad.
  induction Hgood as [|payload event payloads events Hp _ IH].
  - cbn [app parse_each]. by rewrite Hbad.
  - cbn [app parse_each]. by rewrite Hp, IH.
Qed.

(** C1.  Of a streamed body (the payload's [stream] is true), take the
    lines that start with [data: ], drop that prefix and trim what is
    left, and leave out the payloads that are the end marker.  If
    every payload left is JSON, the decoder yields their values, in order,
    and ends.  If one is not, it yields the values of those before it and
    ends with the exception [json.loads] raises on it, the decode error:
    the bad line is not skipped. *)
Theorem streaming_decoder_yields_data_lines
    (data : gmap pystr value) (response : http_response) :
  truthy (default PNone (data !! «"stream"»)) = true ->
  (forall events,
      parses (data_payloads (map decode_replace (body_lines response))) events ->
      read_response data response = {| yielded := events; ending := None |})
  /\ (forall good bad rest events e,
        data_payloads (map decode_replace (body_lines response))
        = good ++ bad :: rest ->
        parses good events ->
        json_loads bad = inl e ->
        read_response data response
        = {| yielded := events; ending := Some e |}).
Proof.
  intros Hstream. unfold read_response. rewrite Hstream. cbn [negb].
  rewrite read_stream_parse_each. split.
  - apply parse_each_all.
  - intros good bad rest events e ->. apply parse_each_until.
Qed.

(** *** The response mapper *)

Lemma map_chunk_event_text (resp : value) (text : pystr) :
  event_text resp text ->
  _map_chunk resp
  = Ok (if str_eqb text [] then None else Some (assistant_chunk text)).
Proof.
  unfold _map_chunk.
  destruct 1 as [items Hc|items Hc|items choice rest Hc Ht
                |items choice rest text Hc Ht];
    cbn [get_item mbind outcome_bind]; rewrite Hc; cbn -[lit str_eqb items_get].
  - reflexivity.
  - reflexivity.
  - by rewrite Ht.
  - rewrite Ht. cbn -[lit str_eqb]. by destruct (str_eqb text []).
Qed.

(** C6.  For a response event whose first choice has the text [text]
    (the empty string when [choices] is absent or empty, or the choice has
    no [text]), the mapper returns the chunk of type [assistant] with that
    text, and the mapped sequence has exactly that one chunk, when the
    text is not empty; it returns nothing, and the sequence is empty, when
    it is. *)
Theorem map_chunk_one_chunk_iff_text (resp : value) (text : pystr) :
  event_text resp text ->
  (text <> [] ->
     _map_chunk resp = Ok (Some (assistant_chunk text))
     /\ map_chunks [resp] None = {| yielded := [assistant_chunk text]; ending := None |})
  /\ (text = [] ->
     _map_chunk resp = Ok None
     /\ map_chunks [resp] None = {| yielded := []; ending := None |}).
Proof.
  intros Hev. apply map_chunk_event_text in Hev. cbn [map_chunks]. rewrite Hev.
  unfold str_eqb. split; intros Htext.
  - by rewrite bool_decide_eq_false_2.
  - by rewrite bool_decide_eq_true_2.
Qed.

(** C9.  When the payload's [stream] is not true and the whole body
    decodes to [text], the decoder yields the JSON value of [text] and
    nothing else, and ends.  So for the body of the example, which
    [json.loads] reads as one choice with the text [Hello there], the
    mapped sequence is exactly the assistant chunk with that text. *)
Theorem non_streaming_decoder_yields_body
    (data : gmap pystr value) (response : http_response) (text : pystr) :
  truthy (default PNone (data !! «"stream"»)) = false ->
  decode_strict (read response) = inr text ->
  (forall event, json_loads text = inr event ->
     read_response data response = {| yielded := [event]; ending := None |})
  /\ (text = hello_body ->
      json_loads hello_body = inr (choices_with_text «"Hello there"») ->
      let events := read_response data response in
      map_chunks (yielded events) (ending events)
      = {| yielded := [assistant_chunk «"Hello there"»]; ending := None |}).
Proof.
  intros Hstream Htext. unfold read_response. rewrite Hstream, Htext. cbn [negb].
  split.
  - by intros event ->.
  - intros -> ->. reflexivity.
Qed.

End Decoder.

(** ** The transport *)

Section Transport.
Context `{Python} `{!Host}.
Import OpenAICodexProvider Spec.

Lemma split_cons (sep : N) (s : pystr) : exists seg segs, split sep s = seg :: segs.
Proof.
  induction s as [|c s (seg & segs & IH)]; cbn [split]; [by eexists _, _|].
  destruct (c =? sep)%N; [by eexists _, _|]. rewrite IH. by eexists _, _.
Qed.

Lemma load_api_key_segments (self : provider) (credential : pystr) :
  load_api_key «"OPENAI_API_KEY"»
    (get_or_empty (options self) «"token_file_path"»)
    (get_or_empty (options self) «"token_load_fn"») = Ok credential ->
  _load_api_key self =
    Ok match split comma (strip credential) with
       | key :: org :: _ => (strip key, Some (strip org))
       | key :: [] => (strip key, None)
       | [] => ([], None)
       end.
Proof.
  intros Hload. unfold _load_api_key. rewrite Hload. cbn [mbind outcome_bind].
  destruct (split_cons comma (strip credential)) as (key & segs & ->).
  destruct segs as [|org segs]; [done|].
  rewrite bool_decide_eq_true_2; [done|]. cbn [length]. lia.
Qed.

Lemma request_headers_by_mode (self : provider) (options : gmap pystr value)
    (mode : value) (credential : pystr) :
  options !! «"auth_type"» = Some mode ->
  (eq_str mode «"bearer"» || eq_str mode «"api-key"» = true ->
   load_api_key «"OPENAI_API_KEY"»
     (get_or_empty (OpenAICodexProvider.options self) «"token_file_path"»)
     (get_or_empty (OpenAICodexProvider.options self) «"token_load_fn"»)
   = Ok credential) ->
  request_headers self options = Ok (auth_headers mode credential ∪ base_headers).
Proof.
  intros Hmode Hload. unfold request_headers, auth_headers. rewrite Hmode.
  fold base_headers.
  destruct (eq_str mode «"bearer"») eqn:Hbearer.
  - rewrite (load_api_key_segments _ credential) by auto.
    destruct (split_cons comma (strip credential)) as (key & segs & ->).
    cbn [mbind outcome_bind].
    destruct segs as [|org segs].
    + by rewrite insert_union_singleton_l.
    + destruct (str_eqb (strip org) []); cbn [negb].
      * by rewrite insert_union_singleton_l.
      * reflexivity.
  - destruct (eq_str mode «"api-key"») eqn:Hkey.
    + rewrite (load_api_key_segments _ credential) by auto.
      destruct (split_cons comma (strip credential)) as (key & segs & ->).
      cbn [mbind outcome_bind].
      destruct segs as [|org segs]; by rewrite insert_union_singleton_l.
    + by rewrite (left_id_L ∅ (∪)).
Qed.

(** The run of [_openai_request] once the headers are there. *)
Lemma openai_request_run (self : provider) (url : value)
    (data options : gmap pystr value) (w : world) (headers : gmap pystr pystr) :
  request_headers self options = Ok headers ->
  _openai_request self url data options w =
    let req := {| req_url := url; req_data := data; req_headers := headers;
                  req_method := «"POST"»;
                  req_timeout := default (PInt 20) (options !! «"request_timeout"») |} in
    match Request url data headers «"POST"» with
    | Raise e => (fail e, w)
    | Ok _ =>
        (match urlopen req with
         | Raise e => fail e
         | Ok response =>
             match read_failure req with
             | None => read_response data response
             | Some broken => read_broken data response broken
             end
         end, {| http_calls := http_calls w ++ [req] |})
    end.
Proof.
  intros Hheaders. unfold _openai_request, pure, http_call, mbind, M_bind, mret, M_ret.
  rewrite Hheaders. cbv zeta.
  destruct (Request url data headers «"POST"»); [|done].
  destruct (urlopen _); [|done]. by destruct (read_failure _).
Qed.

(** C7, amended.  The headers of a request are the two fixed headers and
    the authentication headers of its mode.  Mode [bearer]: the credential
    is split on commas, the first segment, trimmed, is sent as
    [Authorization: Bearer <key>], and the second segment, trimmed, is
    sent as [OpenAI-Organization] when there is one and it is not empty.
    Mode [api-key]: the first segment, trimmed, is sent as [api-key].  Any
    other mode: no authentication header.  When the request can be built
    from the URL, exactly one call is made, with these headers; when it
    cannot, none is. *)
Theorem request_carries_auth_headers_of_mode
    (self : provider) (url : value) (data options : gmap pystr value) (w : world)
    (mode : value) (credential : pystr) :
  options !! «"auth_type"» = Some mode ->
  (eq_str mode «"bearer"» || eq_str mode «"api-key"» = true ->
   load_api_key «"OPENAI_API_KEY"»
     (get_or_empty (OpenAICodexProvider.options self) «"token_file_path"»)
     (get_or_empty (OpenAICodexProvider.options self) «"token_load_fn"»)
   = Ok credential) ->
  request_headers self options = Ok (auth_headers mode credential ∪ base_headers)
  /\ (Request url data (auth_headers mode credential ∪ base_headers) «"POST"» = Ok tt ->
      exists req,
        http_calls (_openai_request self url data options w).2
        = http_calls w ++ [req]
        /\ req_headers req = auth_headers mode credential ∪ base_headers)
  /\ (forall e,
        Request url data (auth_headers mode credential ∪ base_headers) «"POST"»
        = Raise e ->
        _openai_request self url data options w = (fail e, w)).
Proof.
  intros Hmode Hload.
  pose proof (request_headers_by_mode _ _ _ _ Hmode Hload) as Hheaders.
  split; [done|].
  rewrite (openai_request_run _ url data _ w _ Hheaders). cbv zeta.
  split.
  - intros ->. by eexists.
  - by intros e ->.
Qed.

(** *** Unsupported operations *)

(** C8, amended.  Constructing the provider with a command type other
    than [complete] and [edit] fails and leaves the log of HTTP calls as
    it was: with the CapabilityError when the options normalise, with the
    error of the normaliser when they do not (its ConfigurationError, or
    an exception of a converter that it does not catch).  [request_image]
    fails with its CapabilityError for every prompt, the log unchanged. *)
Theorem unsupported_operations_fail_without_http
    (command_type : pystr) (raw_options : gmap pystr value) (w : world) :
  command_type <> «"complete"» -> command_type <> «"edit"» ->
  (exists e,
      __init__ command_type raw_options w = (Raise e, w)
      /\ match _parse_raw_options raw_options with
         | Ok _ => e = unsupported_command
         | Raise e' =>
             e = e'
             /\ exists name t text error,
                  target_of name = Some t
                  /\ raw_options !! name = Some (PStr text) /\ text <> []
                  /\ coerce t text = inl error
                  /\ e = wrapped name text error
         end)
  /\ (forall self prompt w',
        request_image self prompt w' = (Raise unsupported_image, w')).
Proof.
  intros Hcomplete Hedit. split; [|done].
  unfold __init__, config_varname, _ensure_supported_command, pure, str_eqb.
  rewrite !(bool_decide_eq_false_2 (command_type = _)) by done.
  cbn [negb orb]. rewrite (bool_decide_eq_true_2 ([] = [])) by done. cbn [negb].
  rewrite (right_id_L ∅ (∪)). cbn [mbind M_bind].
  pose proof (normalise_entries raw_options) as Hn.
  destruct (_parse_raw_options raw_options) as [options|e].
  - by eexists.
  - eexists. split; [done|]. split; [done|].
    destruct Hn as (name & conv & text & error & Hconv & Hraw & Htext & Herr & ->).
    pose proof (target_converter name) as Ht. rewrite Hconv in Ht.
    destruct (target_of name) as [t|] eqn:Htarget; [|done]. rewrite Ht in Herr.
    by exists name, t, text, error.
Qed.

End Transport.

(** ** The claims that fail as stated *)

Section Doubles.
Import OpenAICodexProvider Spec Mocks Samples.

(** C7 as stated fails: the second segment of [sk-test,] is there, and
    empty, so that the headers as stated have an organization header;
    the one request made has none. *)
Lemma empty_second_segment_is_not_sent :
  (@auth_headers_as_stated python (PStr «"bearer"») key_and_comma ∪ base_headers)
    !! «"OpenAI-Organization"» = Some []
  /\ map (fun req => @req_headers python req !! «"OpenAI-Organization"»)
       (http_calls
          (@_openai_request python (host key_and_comma unreachable)
             {| command_type := «"complete"»; options := ∅ |}
             endpoint ∅ bearer_options no_calls).2)
     = [None].
Proof. split; reflexivity. Qed.

(** C4 as stated fails: on a [stop] nested too deeply [json.loads]
    raises a [RecursionError], which the normaliser does not catch; what
    it raises is that exception, which names neither the key nor the raw
    value, not a ConfigurationError. *)
Lemma deep_stop_is_not_a_configuration_error :
  @_parse_raw_options python deep_stop
  = Raise (RecursionError «"maximum recursion depth exceeded while decoding a JSON array from a unicode string"»)
  /\ ~ ConfigurationError
        (RecursionError «"maximum recursion depth exceeded while decoding a JSON array from a unicode string"»).
Proof.
  split; [vm_compute; reflexivity|]. by intros (name & raw & error & _ & Heq).
Qed.

(** C8 as stated fails: with the command type [chat] and a [max_tokens]
    that is no number, construction fails with the error of the
    normaliser, which is not a CapabilityError. *)
Lemma chat_with_bad_option_is_a_configuration_error :
  @__init__ python (host [] unreachable) «"chat"» bad_max_tokens no_calls
  = (Raise (KnownError (invalid_value «"max_tokens"» «"abc"» (int_error «"abc"»))),
     no_calls)
  /\ ~ CapabilityError
        (KnownError (invalid_value «"max_tokens"» «"abc"» (int_error «"abc"»))).
Proof.
  split; [reflexivity|]. intros [He|He]; discriminate He.
Qed.
End Doubles.

(** ** The theorems at work on the test doubles *)

Section Witnesses.
Import OpenAICodexProvider Spec Mocks Samples.

Lemma streaming_decoder_witness :
  @read_response python {[ «"stream"» := PBool true ]} hi_stream
  = {| yielded := [choices_with_text «"Hi"»]; ending := None |}.
Proof.
  refine (proj1 (@streaming_decoder_yields_data_lines python
                   {[ «"stream"» := PBool true ]} hi_stream _) _ _).
  - reflexivity.
  - repeat constructor.
Defined.

Lemma make_codex_options_witness :
  exists payload,
    @_make_codex_options python _CODEX_DEFAULTS = Ok payload
    /\ payload !! «"logprobs"» = None
    /\ payload !! «"max_tokens"» = Some (PInt 256)
    /\ payload !! «"presence_penalty"» = Some (PInt 0).
Proof.
  destruct (@make_codex_options_includes python _CODEX_DEFAULTS
              (PStr «"code-davinci-002"»))
    as (payload & Hmake & Hiff & Hzero & Hpos & _).
  - reflexivity.
  - intros key v Hkey. unfold count_like in Hkey.
    rewrite !elem_of_cons, elem_of_nil in Hkey.
    destruct Hkey as [->|[->|[->|[->|[]]]]]; vm_compute; by intros [= <-].
  - exists payload. split; [done|]. split; [|split].
    + apply Hzero; [|reflexivity]. unfold count_like. rewrite !elem_of_cons. tauto.
    + apply Hpos; [|lia|reflexivity]. unfold count_like. rewrite !elem_of_cons. tauto.
    + apply Hiff.
      * unfold option_keys. rewrite !elem_of_cons. tauto.
      * split; [reflexivity|]. split; [done|]. split; [done|].
        unfold count_like. rewrite !elem_of_cons, elem_of_nil.
        intros [He|[He|[He|[He|[]]]]]; discriminate He.
Defined.

Lemma map_chunk_witness :
  @_map_chunk python (choices_with_text «"Hi"») = Ok (Some (assistant_chunk «"Hi"»)).
Proof.
  refine (proj1 (proj1 (@map_chunk_one_chunk_iff_text python
                          (choices_with_text «"Hi"») «"Hi"» _) _)).
  - by eapply some_text.
  - discriminate.
Defined.

Lemma auth_headers_witness :
  exists req,
    http_calls
      (@_openai_request python (host «"test-key, org-1"» unreachable)
         {| command_type := «"complete"»; options := ∅ |}
         endpoint ∅ bearer_options no_calls).2 = [req]
    /\ @req_headers python req
       = {[ «"Authorization"» := «"Bearer test-key"»;
            «"OpenAI-Organization"» := «"org-1"» ]} ∪ base_headers.
Proof.
  refine (proj1 (proj2 (@request_carries_auth_headers_of_mode python
           (host «"test-key, org-1"» unreachable)
           {| command_type := «"complete"»; options := ∅ |}
           endpoint ∅ bearer_options no_calls
           (PStr «"bearer"») «"test-key, org-1"» _ _)) _).
  - reflexivity.
  - reflexivity.
  - reflexivity.
Defined.

Lemma unsupported_operations_witness :
  exists e,
    @__init__ python (host «"test-key"» unreachable)
      «"chat"» ∅ no_calls = (Raise e, no_calls)
    /\ e = unsupported_command.
Proof.
  apply (proj1 (@unsupported_operations_fail_without_http python
                  (host «"test-key"» unreachable)
                  «"chat"» ∅ no_calls ltac:(discriminate) ltac:(discriminate))).
Defined.

Lemma non_streaming_decoder_witness :
  let events := @read_response python ∅ {| body_lines := [hello_body] |} in
  @map_chunks python (yielded events) (ending events)
  = {| yielded := [assistant_chunk «"Hello there"»]; ending := None |}.
Proof.
  refine (proj2 (@non_streaming_decoder_yields_body python ∅
                   {| body_lines := [hello_body] |} hello_body _ _) _ _);
    reflexivity.
Defined.

Lemma stream_zero_witness :
  @_parse_raw_options python stream_as_text
  = Ok {[ «"stream"» := PBool false; «"model"» := PStr «"code-davinci-002"» ]}
  /\ exists payload,
       @_make_codex_options python
         {[ «"stream"» := PBool false; «"model"» := PStr «"code-davinci-002"» ]}
       = Ok payload
       /\ payload !! «"stream"» = Some (PBool false).
Proof.
  split; [reflexivity|].
  apply (@stream_zero_is_sent_as_false python stream_as_text
           {[ «"stream"» := PBool false; «"model"» := PStr «"code-davinci-002"» ]}
           (PStr «"code-davinci-002"»)); reflexivity.
Defined.

(** The scenario of tests/openai_codex_provider_test.py, against a
    server that streams the example: the prompt ends with the marker, one
    call goes to the default endpoint, one chunk comes back. *)
Example test_codex_provider_formats_prompt :
  @__init__ python (host «"test-key"» (Ok hi_stream)) «"complete"» ∅ no_calls
  = (Ok default_provider, no_calls)
  /\ (@request python (host «"test-key"» (Ok hi_stream))
        default_provider _make_messages no_calls).1
     = {| yielded := [assistant_chunk «"Hi"»]; ending := None |}
  /\ map (@req_url python)
       (http_calls (@request python (host «"test-key"» (Ok hi_stream))
                      default_provider _make_messages no_calls).2)
     = [endpoint]
  /\ last (prompt_parts _make_messages) = Some marker.
Proof. repeat split; reflexivity. Qed.

Example test_codex_provider_rejects_chat :
  @__init__ python (host «"test-key"» unreachable) «"chat"» ∅ no_calls
  = (Raise unsupported_command, no_calls).
Proof. reflexivity. Qed.

(** An event whose text is empty gives no chunk. *)
Example empty_text_yields_nothing :
  let events :=
    @read_response python {[ «"stream"» := PBool true ]}
      {| body_lines := [line (jlit "data: {'choices':[{'text':''}]}")] |} in
  @map_chunks python (yielded events) (ending events)
  = {| yielded := []; ending := None |}.
Proof. reflexivity. Qed.

End Witnesses.

(** * Further properties *)

(** ** Normalisation and the payload *)

Section MoreOptions.
Context `{Python}.
Import OpenAICodexProvider Spec More.

Lemma converted_is_Some (conv : pystr -> exn + value) (old new : option value) :
  converted conv old new -> (is_Some new <-> is_Some old).
Proof.
  unfold converted. destruct old as [[| | | |text| |]|]; try by intros ->.
  destruct (str_eqb text []); [by intros ->|].
  intros (v & _ & ->). split; eauto.
Qed.

(** X1.  Normalisation keeps the keys: the mapping it returns has the
    keys of the raw mapping, no more and no fewer. *)
Theorem parse_raw_options_keeps_keys (raw_options options : gmap pystr value) :
  _parse_raw_options raw_options = Ok options ->
  dom options = dom raw_options.
Proof.
  intros Hparse. apply set_eq. intros name. rewrite !elem_of_dom.
  destruct (convert_all_ok _ _ _ converters_NoDup Hparse name) as [Hin Hout].
  destruct (converter_of name) as [conv|] eqn:Hconv.
  - apply converter_of_elem in Hconv. by eapply converted_is_Some, Hin.
  - apply converter_of_None in Hconv. by rewrite Hout.
Qed.

Lemma convert_option_ok_converts (name : pystr) (conv : pystr -> exn + value)
    (opts opts' : gmap pystr value) :
  _convert_option name conv opts = Ok opts' -> converts opts (name, conv).
Proof.
  intros Hone text Htext Hne. apply convert_option_ok in Hone as [Hconv _].
  unfold converted in Hconv. cbn [fst] in Htext. rewrite Htext in Hconv.
  unfold str_eqb in Hconv. rewrite bool_decide_eq_false_2 in Hconv by done.
  destruct Hconv as (v & Hv & _). by exists v.
Qed.

Lemma convert_all_raise_first (cs : list (pystr * (pystr -> exn + value)))
    (opts : gmap pystr value) (e : exn) :
  NoDup cs.*1 ->
  convert_all cs opts = Raise e ->
  exists before name conv after text error,
    cs = before ++ (name, conv) :: after
    /\ Forall (converts opts) before
    /\ opts !! name = Some (PStr text) /\ text <> []
    /\ conv text = inl error
    /\ e = wrapped name text error.
Proof.
  revert opts. induction cs as [|[name0 conv0] cs IH]; intros opts Hnd Hall; [done|].
  cbn [convert_all] in Hall. apply NoDup_cons in Hnd as [Hfresh Hnd].
  destruct (_convert_option name0 conv0 opts) as [opts1|e1] eqn:Hone;
    cbn [mbind outcome_bind] in Hall.
  - pose proof (convert_option_ok_converts _ _ _ _ Hone) as Hfirst.
    apply convert_option_ok in Hone as [_ Hother].
    destruct (IH _ Hnd Hall)
      as (before & name & conv & after & text & error
          & -> & Hbefore & Hname & Htext & Hconv & ->).
    assert (forall n, n ∈ (before ++ (name, conv) :: after).*1 ->
                      opts1 !! n = opts !! n) as Hsame.
    { intros n Hn. apply Hother. intros ->. by apply Hfresh. }
    exists ((name0, conv0) :: before), name, conv, after, text, error.
    split; [done|]. split; [|split; [|done]].
    + constructor; [done|]. apply Forall_forall. intros [n c] Hnc.
      rewrite Forall_forall in Hbefore. intros t Ht Hne.
      apply (Hbefore _ Hnc t); [|done]. cbn [fst] in *. rewrite Hsame; [done|].
      rewrite fmap_app, elem_of_app. left. apply list_elem_of_fmap. by exists (n, c).
    + rewrite <- Hsame; [done|].
      rewrite fmap_app, elem_of_app. right. left.
  - injection Hall as <-.
    apply convert_option_raise in Hone as (text & error & Hname & Hrest).
    by exists [], name0, conv0, cs, text, error.
Qed.

(** X2.  When normalisation raises, it is for the first option, in the
    order of the calls of [_convert_option], whose conversion raises:
    every option before it was skipped or converted.  What is raised is
    the ConfigurationError naming that option and its raw text when the
    conversion raised a [ValueError], [TypeError] or
    [json.JSONDecodeError], and the exception of the conversion itself
    otherwise. *)
Theorem parse_raw_options_reports_first_failure
    (raw_options : gmap pystr value) (e : exn) :
  _parse_raw_options raw_options = Raise e ->
  exists before name conv after text error,
    converters = before ++ (name, conv) :: after
    /\ Forall (converts raw_options) before
    /\ raw_options !! name = Some (PStr text) /\ text <> []
    /\ conv text = inl error
    /\ e = wrapped name text error.
Proof. apply convert_all_raise_first, converters_NoDup. Qed.

Lemma convert_option_id (name : pystr) (conv : pystr -> exn + value)
    (opts : gmap pystr value) :
  (forall text, opts !! name = Some (PStr text) -> text = []) ->
  _convert_option name conv opts = Ok opts.
Proof.
  intros Hnone. unfold _convert_option.
  destruct (opts !! name) as [[| | | |text| |]|]; try done.
  by rewrite (Hnone text eq_refl).
Qed.

(** X3.  Normalisation returns the raw mapping itself when no key with
    a converter holds a non-empty text. *)
Theorem parse_raw_options_nothing_to_convert (raw_options : gmap pystr value) :
  (forall name text, name ∈ converters.*1 ->
                     raw_options !! name = Some (PStr text) -> text = []) ->
  _parse_raw_options raw_options = Ok raw_options.
Proof.
  unfold _parse_raw_options. induction converters as [|[name conv] cs IH];
    intros Hnone; [done|].
  cbn [convert_all]. rewrite convert_option_id.
  - cbn [mbind outcome_bind]. apply IH. intros n t Hn. apply Hnone.
    cbn [fmap list_fmap]. by right.
  - intros text. apply Hnone. cbn [fmap list_fmap fst]. left.
Qed.

End MoreOptions.

Section MoreBuilder.
Context `{Python}.
Import OpenAICodexProvider Spec More.

(** X4.  The request builder fails exactly when [model] is missing,
    with [KeyError] of [model].  When it succeeds, the payload has the
    [model] of the options, every key of the payload is [model] or an
    allowlisted key, and every value of the payload is the value the
    options have at that key: nothing else of the options (the endpoint,
    the authentication mode, the token paths) gets into the payload. *)
Theorem make_codex_options_model_and_allowlist (options : gmap pystr value) :
  match _make_codex_options options with
  | Ok payload =>
      payload !! «"model"» = options !! «"model"»
      /\ is_Some (options !! «"model"»)
      /\ (forall key, is_Some (payload !! key) ->
                      key = «"model"» \/ key ∈ option_keys)
      /\ (forall key v, payload !! key = Some v -> options !! key = Some v)
  | Raise e => options !! «"model"» = None /\ e = KeyError «"model"»
  end.
Proof.
  unfold _make_codex_options.
  destruct (options !! «"model"») as [model|] eqn:Hmodel; [|done].
  split; [|split; [by eexists|split]].
  - rewrite fold_add_option_lookup, lookup_singleton_eq.
    rewrite bool_decide_eq_false_2; [done|].
    intros Hin. by apply option_keys_not_model in Hin.
  - intros key. rewrite fold_add_option_lookup. case_bool_decide as Hkey; [by right|].
    intros [v Hv]. apply lookup_singleton_Some in Hv as [<- _]. by left.
  - intros key v. rewrite fold_add_option_lookup. case_bool_decide as Hkey.
    + rewrite lookup_singleton_ne
        by (symmetry; by apply option_keys_not_model).
      unfold kept. destruct (options !! key) as [v'|]; [|done].
      destruct (in_empty_or_none v'); [done|].
      by destruct (bool_decide (key ∈ count_like) && eq_zero v').
    + intros Hv. apply lookup_singleton_Some in Hv as [<- <-]. done.
Qed.

Lemma make_codex_options_kept (options payload : gmap pystr value) (key : pystr) :
  _make_codex_options options = Ok payload ->
  key ∈ option_keys -> payload !! key = kept options key.
Proof.
  intros Hmake Hkey.
  destruct (options !! «"model"») as [model|] eqn:Hmodel.
  - destruct (make_codex_options_lookup _ _ Hmodel) as (payload' & Hmake' & Hkept).
    rewrite Hmake' in Hmake. injection Hmake as <-. by apply Hkept.
  - unfold _make_codex_options in Hmake. by rewrite Hmodel in Hmake.
Qed.

(** X5.  An allowlisted option given as the empty text passes
    normalisation unchanged and is left out of the payload. *)
Theorem empty_text_option_is_not_sent
    (raw_options options payload : gmap pystr value) (key : pystr) :
  key ∈ option_keys ->
  raw_options !! key = Some (PStr []) ->
  _parse_raw_options raw_options = Ok options ->
  _make_codex_options options = Ok payload ->
  options !! key = Some (PStr []) /\ payload !! key = None.
Proof.
  intros Hkey Hraw Hparse Hmake.
  assert (options !! key = Some (PStr [])) as Hopt.
  { pose proof (normalise_entries raw_options) as Hn. rewrite Hparse in Hn.
    specialize (Hn key). rewrite Hraw in Hn. by destruct (converter_of key). }
  split; [done|].
  rewrite (make_codex_options_kept _ _ _ Hmake Hkey).
  unfold kept. by rewrite Hopt.
Qed.

(** X6.  A count-like option given as a text that [int] reads as 0 is
    normalised to the integer 0 and left out of the payload. *)
Theorem zero_text_count_is_not_sent
    (raw_options options payload : gmap pystr value) (key text : pystr) :
  key ∈ count_like ->
  raw_options !! key = Some (PStr text) -> text <> [] ->
  py_int text = inr 0 ->
  _parse_raw_options raw_options = Ok options ->
  _make_codex_options options = Ok payload ->
  options !! key = Some (PInt 0) /\ payload !! key = None.
Proof.
  intros Hkey Hraw Htext Hzero Hparse Hmake.
  assert (converter_of key = Some conv_int) as Hconv.
  { unfold count_like in Hkey. rewrite !elem_of_cons, elem_of_nil in Hkey.
    destruct Hkey as [->|[->|[->|[->|[]]]]]; reflexivity. }
  assert (options !! key = Some (PInt 0)) as Hopt.
  { pose proof (normalise_entries raw_options) as Hn. rewrite Hparse in Hn.
    specialize (Hn key). rewrite Hconv, Hraw in Hn. unfold str_eqb in Hn.
    rewrite bool_decide_eq_false_2 in Hn by done.
    destruct Hn as (v & Hv & ->). unfold conv_int in Hv. rewrite Hzero in Hv.
    by injection Hv as <-. }
  split; [done|].
  rewrite (make_codex_options_kept _ _ _ Hmake (count_like_option_keys _ Hkey)).
  unfold kept. rewrite Hopt. cbn [in_empty_or_none eq_zero].
  by rewrite (bool_decide_eq_true_2 _ Hkey).
Qed.

End MoreBuilder.

Section MorePrompt.
Import OpenAICodexProvider Spec More.

Lemma startswith_app (p s : pystr) : startswith (p ++ s) p = true.
Proof.
  induction p as [|c p IH]; simpl; [done|].
  by rewrite N.eqb_refl, IH.
Qed.

#[local] Arguments startswith : simpl never.
#[local] Arguments block : simpl never.

Lemma join_cons_nonempty (sep p : pystr) (rest : list pystr) :
  p <> [] -> join sep (p :: rest) <> [].
Proof.
  intros Hp. destruct rest as [|q rest]; [done|].
  cbn [join]. destruct p; [done|discriminate].
Qed.

Lemma block_label_prefix (label text : pystr) :
  startswith (block (label, text)) (label ++ «"::"») = true.
Proof. unfold block. cbn [fst snd]. rewrite app_assoc. apply startswith_app. Qed.

(** X7.  The prompt is never empty, and every block it is joined from
    starts with a label of the table followed by [::]; for no message at
    all, the prompt is the bare marker. *)
Theorem prompt_is_labelled_and_not_empty (messages : list AIMessage) :
  prompt_parts messages <> []
  /\ Forall (fun part => exists label, label ∈ labels
                                       /\ startswith part (label ++ «"::"») = true)
            (prompt_parts messages)
  /\ _messages_to_prompt messages <> []
  /\ (messages = [] -> _messages_to_prompt messages = marker).
Proof.
  assert (Forall (fun part => exists label, label ∈ labels
                              /\ startswith part (label ++ «"::"») = true)
                 (map block (turns nonempty_text messages))) as Hblocks.
  { apply Forall_forall. intros part Hpart. apply list_elem_of_fmap in Hpart.
    destruct Hpart as ([label text] & -> & Hin).
    pose proof (turns_labels nonempty_text messages) as Hl.
    rewrite Forall_forall in Hl. exists label. split; [by apply (Hl _ Hin)|].
    apply block_label_prefix. }
  assert (exists label, label ∈ labels /\ startswith marker (label ++ «"::"») = true)
    as Hmarker.
  { exists «"Assistant"». split; [|reflexivity].
    unfold labels. rewrite !elem_of_cons. tauto. }
  assert (prompt_parts messages <> []
          /\ Forall (fun part => exists label, label ∈ labels
                        /\ startswith part (label ++ «"::"») = true)
                    (prompt_parts messages)) as [Hne Hall].
  { rewrite prompt_parts_turns.
    destruct (last (turns nonempty_text messages)) as [[label text]|] eqn:Hlast.
    - apply last_Some in Hlast as [ts Hts].
      case_bool_decide.
      + split; [|done]. rewrite Hts, map_app. by destruct (map block ts).
      + split; [by destruct (map block _)|].
        apply Forall_app. split; [done|]. by constructor.
    - split; [done|]. by constructor. }
  split; [done|]. split; [done|]. split.
  - unfold _messages_to_prompt.
    destruct (prompt_parts messages) as [|part parts]; [done|].
    apply join_cons_nonempty. apply Forall_inv in Hall as (label & Hlabel & Hstart).
    intros ->. revert Hstart. unfold labels in Hlabel.
    rewrite !elem_of_cons, elem_of_nil in Hlabel.
    by destruct Hlabel as [->|[->|[->|[->|[]]]]].
  - by intros ->.
Qed.

Lemma no_text_part_no_text (message : AIMessage) :
  Forall (fun c => part_type c <> Some «"text"») (default [] (content message)) ->
  message_text message = [].
Proof.
  intros Hparts. rewrite message_text_nonempty. unfold nonempty_text, text_parts.
  induction Hparts as [|c cs Hc _ IH]; [done|].
  cbn [flat_map]. by rewrite bool_decide_eq_false_2.
Qed.

(** X8.  A message none of whose content parts is of type text has the
    empty text, and a message with the empty text can be left out,
    wherever it stands, without changing the prompt. *)
Theorem message_without_text_adds_nothing
    (before after : list AIMessage) (message : AIMessage) :
  (Forall (fun c => part_type c <> Some «"text"») (default [] (content message))
   -> message_text message = [])
  /\ (message_text message = [] ->
      _messages_to_prompt (before ++ message :: after)
      = _messages_to_prompt (before ++ after)).
Proof.
  split; [apply no_text_part_no_text|].
  intros Htext. unfold _messages_to_prompt. f_equal.
  rewrite !prompt_parts_turns.
  assert (turns nonempty_text (before ++ message :: after)
          = turns nonempty_text (before ++ after)) as ->; [|done].
  change (message :: after) with ([message] ++ after).
  rewrite !turns_app. f_equal. unfold turns at 1. cbn [omap list_omap].
  rewrite message_text_nonempty in Htext. by rewrite Htext.
Qed.

End MorePrompt.

(** ** Decoding and mapping *)

Section MoreDecoder.
Context `{Python}.
Import OpenAICodexProvider Spec More.

(** X9.  Decoding the lines of a streamed body goes line by line: the
    run over [lines ++ lines'] is the run over [lines] followed by the run
    over [lines'], unless the first ends with an error, which ends all. *)
Theorem read_stream_app (lines lines' : list (list N)) :
  read_stream (lines ++ lines') =
    match ending (read_stream lines) with
    | None => {| yielded := yielded (read_stream lines) ++ yielded (read_stream lines');
                 ending := ending (read_stream lines') |}
    | Some e => read_stream lines
    end.
Proof.
  induction lines as [|line_bytes lines IH].
  { cbn [app read_stream]. unfold stop. cbn [yielded ending app].
    by destruct (read_stream lines'). }
  cbn [app read_stream].
  destruct (negb (startswith (decode_replace line_bytes) resp_data_prefix)); [done|].
  destruct (str_eqb _ resp_done); [done|].
  destruct (json_loads _) as [msg|event]; [done|].
  rewrite IH. cbn [yield yielded ending].
  by destruct (ending (read_stream lines)), (read_stream lines).
Qed.

(** X10.  A line without the prefix, or whose payload is the end
    marker, can be left out, wherever it stands, without changing what the
    decoder yields: the end marker does not end the decoding. *)
Theorem read_stream_passes_over (before after : list (list N)) (line_bytes : list N) :
  passed_over line_bytes ->
  read_stream (before ++ line_bytes :: after) = read_stream (before ++ after).
Proof.
  intros Hline.
  assert (read_stream (line_bytes :: after) = read_stream after) as Hone.
  { cbn [read_stream]. destruct Hline as [->|Hdone]; [done|].
    destruct (negb _); [done|]. unfold str_eqb.
    by rewrite bool_decide_eq_true_2. }
  induction before as [|l before IH]; [done|].
  cbn [app read_stream]. rewrite IH. done.
Qed.

Lemma map_chunk_Some (resp : value) (chunk : AIResponseChunk) :
  _map_chunk resp = Ok (Some chunk) ->
  chunk_type chunk = «"assistant"» /\ truthy (chunk_content chunk) = true.
Proof.
  unfold _map_chunk.
  destruct (get_item resp _ _) as [got|]; [|done]. cbn [mbind outcome_bind].
  destruct (first_item _) as [first|]; [|done]. cbn [mbind outcome_bind].
  destruct (get_item first _ _) as [text|]; [|done]. cbn [mbind outcome_bind].
  destruct (truthy text) eqn:Htext; [|done]. by intros [= <-].
Qed.

(** X11.  Whatever the events, every chunk the mapper yields has the
    type [assistant] and a content that is true in the sense of Python,
    and there are at most as many chunks as events. *)
Theorem map_chunks_yields_assistant_text (events : list value) (ending : option exn) :
  Forall (fun chunk => chunk_type chunk = «"assistant"»
                       /\ truthy (chunk_content chunk) = true)
         (yielded (map_chunks events ending))
  /\ (length (yielded (map_chunks events ending)) <= length events)%nat.
Proof.
  induction events as [|resp events [IHall IHlen]]; [by split; [constructor|]|].
  cbn [map_chunks].
  destruct (_map_chunk resp) as [[chunk|]|e] eqn:Hresp; cbn [yield yielded length].
  - split; [|lia]. constructor; [by apply (map_chunk_Some resp)|done].
  - split; [done|lia].
  - unfold fail. cbn [yielded length]. split; [constructor|lia].
Qed.

(** X12.  The mapper treats each event on its own: the chunks of
    [events ++ events'] are the chunks of [events] followed by those of
    [events'], unless an event of [events] raises, which ends all. *)
Theorem map_chunks_app (events events' : list value) (ending' : option exn) :
  map_chunks (events ++ events') ending' =
    match ending (map_chunks events None) with
    | None => {| yielded := yielded (map_chunks events None)
                            ++ yielded (map_chunks events' ending');
                 ending := ending (map_chunks events' ending') |}
    | Some e => map_chunks events None
    end.
Proof.
  induction events as [|resp events IH].
  { cbn [app map_chunks yielded ending]. by destruct (map_chunks events' ending'). }
  cbn [app map_chunks].
  destruct (_map_chunk resp) as [[chunk|]|e]; [| |done]; rewrite IH.
  - cbn [yield yielded ending].
    by destruct (ending (map_chunks events None)), (map_chunks events None).
  - done.
Qed.

(** X13.  Off the expected shape: an event whose [choices] is there
    but false in the sense of Python (null, false, 0, empty) gives no
    chunk; an event whose first choice is not an object, and an event
    that is not an object, raise [AttributeError]. *)
Theorem map_chunk_edges (resp : value) :
  (forall items got,
      resp = PDict items ->
      items_get items «"choices"» = Some got -> truthy got = false ->
      _map_chunk resp = Ok None)
  /\ (forall items first rest,
        resp = PDict items ->
        items_get items «"choices"» = Some (PList (first :: rest)) ->
        (forall choice, first <> PDict choice) ->
        _map_chunk resp = Raise AttributeError)
  /\ ((forall items, resp <> PDict items) -> _map_chunk resp = Raise AttributeError).
Proof.
  unfold _map_chunk. split; [|split].
  - intros items got -> Hgot Hfalsy. cbn [get_item mbind outcome_bind].
    rewrite Hgot. cbn [default from_option id]. by rewrite Hfalsy.
  - intros items first rest -> Hgot Hfirst. cbn [get_item mbind outcome_bind].
    rewrite Hgot. cbn -[lit str_eqb items_get].
    destruct first as [| | | | | |choice]; try done. by destruct (Hfirst choice).
  - intros Hresp. destruct resp as [| | | | | |items]; try done.
    by destruct (Hresp items).
Qed.

End MoreDecoder.

(** ** Credentials, transport, requests, construction *)

Section MoreText.

Lemma lstrip_idemp (s : pystr) : lstrip (lstrip s) = lstrip s.
Proof.
  induction s as [|c s IH]; [done|]. cbn [lstrip].
  destruct (is_space c) eqn:Hc; [done|]. cbn [lstrip]. by rewrite Hc.
Qed.

Lemma lstrip_elem (s : pystr) (c : N) : c ∈ lstrip s -> c ∈ s.
Proof.
  induction s as [|d s IH]; [done|]. cbn [lstrip].
  destruct (is_space d); [|done]. intros Hc. right. by apply IH.
Qed.

Lemma lstrip_keeps (s : pystr) (c : N) :
  is_space c = false -> c ∈ s -> c ∈ lstrip s.
Proof.
  intros Hc. induction s as [|d s IH]; [done|]. cbn [lstrip].
  destruct (is_space d) eqn:Hd; [|done].
  intros [->|Hin]%elem_of_cons; [congruence|by apply IH].
Qed.

Lemma lstrip_snoc (s : pystr) (c : N) :
  is_space c = false -> exists s', lstrip (s ++ [c]) = s' ++ [c].
Proof.
  intros Hc. induction s as [|d s IH]; cbn [app lstrip].
  - rewrite Hc. by exists [].
  - destruct (is_space d); [done|]. by exists (d :: s).
Qed.

Lemma rstrip_idemp (s : pystr) : rstrip (rstrip s) = rstrip s.
Proof. unfold rstrip. by rewrite rev_involutive, lstrip_idemp. Qed.

Lemma lstrip_length (s : pystr) : (length (lstrip s) <= length s)%nat.
Proof.
  induction s as [|c s IH]; [done|]. cbn [lstrip].
  destruct (is_space c); cbn [length]; lia.
Qed.

Lemma lstrip_rstrip (s : pystr) : lstrip s = s -> lstrip (rstrip s) = rstrip s.
Proof.
  destruct s as [|c s]; [done|]. cbn [lstrip].
  destruct (is_space c) eqn:Hc.
  - intros Hs. pose proof (lstrip_length s) as Hlen. rewrite Hs in Hlen.
    cbn [length] in Hlen. lia.
  - intros _. unfold rstrip. cbn [rev].
    destruct (lstrip_snoc (rev s) c Hc) as [s' ->].
    rewrite rev_app_distr. cbn [rev app lstrip]. by rewrite Hc.
Qed.

Lemma strip_idemp (s : pystr) : strip (strip s) = strip s.
Proof.
  unfold strip. rewrite (lstrip_rstrip (lstrip s)) by apply lstrip_idemp.
  apply rstrip_idemp.
Qed.

Lemma elem_of_rev (s : pystr) (c : N) : c ∈ rev s <-> c ∈ s.
Proof. rewrite !list_elem_of_In. symmetry. apply in_rev. Qed.

Lemma strip_elem (s : pystr) (c : N) : c ∈ strip s -> c ∈ s.
Proof.
  unfold strip, rstrip. rewrite elem_of_rev. intros Hc%lstrip_elem.
  rewrite elem_of_rev in Hc. by apply lstrip_elem.
Qed.

Lemma strip_keeps (s : pystr) (c : N) :
  is_space c = false -> c ∈ s -> c ∈ strip s.
Proof.
  intros Hc Hin. unfold strip, rstrip. rewrite elem_of_rev.
  apply lstrip_keeps; [done|]. rewrite elem_of_rev. by apply lstrip_keeps.
Qed.

Lemma split_segments (sep : N) (s : pystr) :
  Forall (fun seg => sep ∉ seg) (split sep s).
Proof.
  induction s as [|c s IH]; cbn [split].
  - constructor; [apply not_elem_of_nil|constructor].
  - destruct (c =? sep)%N eqn:Hc.
    + constructor; [apply not_elem_of_nil|done].
    + destruct (split sep s) as [|seg segs]; inversion IH; subst.
      * constructor; [|done]. apply N.eqb_neq in Hc. rewrite elem_of_cons.
        intros [Heq|Hin]; [congruence|by apply elem_of_nil in Hin].
      * constructor; [|done]. apply N.eqb_neq in Hc. rewrite elem_of_cons.
        intros [Heq|Hin]; [congruence|done].
Qed.

Lemma split_one (sep : N) (s : pystr) :
  (exists seg, split sep s = [seg]) <-> sep ∉ s.
Proof.
  induction s as [|c s IH]; cbn [split].
  - split; [intros _; apply not_elem_of_nil|by eexists].
  - destruct (split_cons sep s) as (seg & segs & Hsplit). rewrite Hsplit in *.
    destruct (c =? sep)%N eqn:Hc.
    + apply N.eqb_eq in Hc as ->. split; [by intros [seg0 [=]]|].
      intros Hnot. exfalso. apply Hnot. left.
    + apply N.eqb_neq in Hc. rewrite not_elem_of_cons. split.
      * intros [seg0 [= _ ->]]. split; [congruence|]. apply IH. by eexists.
      * intros [_ Hnot]. apply IH in Hnot as [seg0 [= -> ->]]. by eexists.
Qed.

End MoreText.

Section MoreTransport.
Context `{Python} `{!Host}.
Import OpenAICodexProvider Spec More.

(** X14.  With a credential at hand, [_load_api_key] returns a key
    that holds no comma and is trimmed; the organization is None exactly
    when the credential holds no comma, and is otherwise trimmed and
    without comma as well. *)
Theorem load_api_key_segments_are_clean (self : provider) (credential : pystr) :
  load_api_key «"OPENAI_API_KEY"»
    (get_or_empty (options self) «"token_file_path"»)
    (get_or_empty (options self) «"token_load_fn"») = Ok credential ->
  exists api_key org_id,
    _load_api_key self = Ok (api_key, org_id)
    /\ (comma ∉ api_key) /\ strip api_key = api_key
    /\ (org_id = None <-> (comma ∉ credential))
    /\ (forall org, org_id = Some org -> (comma ∉ org) /\ strip org = org).
Proof.
  intros Hload. rewrite (load_api_key_segments _ _ Hload).
  pose proof (split_segments comma (strip credential)) as Hsegs.
  pose proof (split_one comma (strip credential)) as Hone.
  assert (comma ∉ strip credential <-> comma ∉ credential) as Hcomma.
  { split; intros Hnot Hin; apply Hnot;
      [by apply strip_keeps|by apply strip_elem]. }
  rewrite Hcomma in Hone. clear Hcomma.
  destruct (split_cons comma (strip credential)) as (key & segs & Hsplit).
  rewrite Hsplit in *. apply Forall_cons in Hsegs as [Hkey Hsegs].
  assert (comma ∉ strip key) as Hclean.
  { intros Hin. by apply strip_elem in Hin. }
  destruct segs as [|org segs].
  - eexists _, _. split; [done|]. split; [done|]. split; [apply strip_idemp|].
    split; [|done]. split; [intros _|done]. apply Hone. by eexists.
  - apply Forall_inv in Hsegs. eexists _, _. split; [done|].
    split; [done|]. split; [apply strip_idemp|]. split.
    + split; [done|]. intros Hnot. by apply Hone in Hnot as [seg [=]].
    + intros org' [= <-]. split; [|apply strip_idemp].
      intros Hin. by apply strip_elem in Hin.
Qed.

(** X15.  No HTTP call is made without the means to authenticate: when
    [auth_type] is missing the run ends with its [KeyError], and when the
    mode is [bearer] or [api-key] and the credential cannot be loaded,
    the run ends with the error of the loader; the log of calls is as it
    was. *)
Theorem no_credential_no_call
    (self : provider) (url : value) (data options : gmap pystr value) (w : world) :
  (options !! «"auth_type"» = None ->
   _openai_request self url data options w = (fail (KeyError «"auth_type"»), w))
  /\ (forall mode e,
        options !! «"auth_type"» = Some mode ->
        eq_str mode «"bearer"» || eq_str mode «"api-key"» = true ->
        load_api_key «"OPENAI_API_KEY"»
          (get_or_empty (OpenAICodexProvider.options self) «"token_file_path"»)
          (get_or_empty (OpenAICodexProvider.options self) «"token_load_fn"»)
        = Raise e ->
        _openai_request self url data options w = (fail e, w)).
Proof.
  unfold _openai_request, pure, request_headers, mbind, M_bind. split.
  - by intros ->.
  - intros mode e -> Hmode Hload. unfold _load_api_key. rewrite Hload.
    cbn [mbind outcome_bind].
    destruct (eq_str mode «"bearer"»); [done|].
    cbn [orb] in Hmode. by rewrite Hmode.
Qed.

(** X16.  Once the headers are there, [_openai_request] builds the
    request: a POST to the URL with the payload, those headers, and the
    timeout of the options or 20.  When building it raises (a URL without
    scheme), nothing is yielded, the run ends with that exception, and no
    call is made.  Otherwise exactly one call is made.  If the call fails,
    nothing is yielded and the run ends with the error of the transport;
    if the response is read to its end, the run is its decoding; if
    reading it breaks, the run is that of [read_broken]: nothing in the
    non-streaming case, the events of the lines read in the streaming
    case, and an error at the end. *)
Theorem transport_outcome_after_one_call
    (self : provider) (url : value) (data options : gmap pystr value) (w : world)
    (headers : gmap pystr pystr) :
  request_headers self options = Ok headers ->
  (forall e, Request url data headers «"POST"» = Raise e ->
             _openai_request self url data options w = (fail e, w))
  /\ (Request url data headers «"POST"» = Ok tt ->
      exists req,
        req_url req = url /\ req_data req = data /\ req_headers req = headers
        /\ req_method req = «"POST"»
        /\ req_timeout req = default (PInt 20) (options !! «"request_timeout"»)
        /\ (_openai_request self url data options w).2
           = {| http_calls := http_calls w ++ [req] |}
        /\ (forall e, urlopen req = Raise e ->
                      (_openai_request self url data options w).1 = fail e)
        /\ (forall response, urlopen req = Ok response ->
                      read_failure req = None ->
                      (_openai_request self url data options w).1
                      = read_response data response)
        /\ (forall response broken, urlopen req = Ok response ->
                      read_failure req = Some broken ->
                      (_openai_request self url data options w).1
                      = read_broken data response broken
                      /\ yielded (read_broken data response broken)
                         = (if truthy (default PNone (data !! «"stream"»))
                            then yielded (read_stream (body_lines response))
                            else [])
                      /\ is_Some (ending (read_broken data response broken)))).
Proof.
  intros Hheaders. rewrite (openai_request_run _ url data _ w _ Hheaders).
  cbv zeta. split; [by intros e ->|]. intros ->.
  exists {| req_url := url; req_data := data; req_headers := headers;
            req_method := «"POST"»;
            req_timeout := default (PInt 20) (options !! «"request_timeout"») |}.
  cbn [fst snd].
  split; [reflexivity|]. split; [reflexivity|]. split; [reflexivity|].
  split; [reflexivity|]. split; [reflexivity|]. split; [reflexivity|].
  cbn [req_url req_data req_headers req_method req_timeout].
  split; [by intros e ->|].
  split; [by intros response -> ->|].
  intros response broken -> ->. split; [done|]. unfold read_broken.
  destruct (truthy _); cbn [negb]; [|by split; [|eexists]].
  destruct (ending (read_stream (body_lines response))) eqn:Hend.
  - by rewrite Hend.
  - by split; [|eexists].
Qed.

End MoreTransport.

Section MoreRequests.
Context `{Python} `{!Host}.
Import OpenAICodexProvider Spec More.

(** X17.  When one of the options [request] reads with [options[key]]
    is missing, [request] ends with the [KeyError] of a missing one, yields
    nothing, and makes no HTTP call. *)
Theorem request_missing_option_no_call
    (self : provider) (messages : list AIMessage) (w : world) (key : pystr) :
  key ∈ required_options ->
  options self !! key = None ->
  exists missing,
    missing ∈ required_options
    /\ options self !! missing = None
    /\ request self messages w = (fail (KeyError missing), w).
Proof.
  intros Hkey Hnone. unfold request, item, _make_codex_options.
  destruct (options self !! «"auth_type"») as [auth_type|] eqn:Hauth.
  2:{ exists «"auth_type"». split; [|done]. unfold required_options.
      rewrite !elem_of_cons. tauto. }
  destruct (options self !! «"token_file_path"») as [path|] eqn:Hpath.
  2:{ exists «"token_file_path"». split; [|done]. unfold required_options.
      rewrite !elem_of_cons. tauto. }
  destruct (options self !! «"token_load_fn"») as [fn|] eqn:Hfn.
  2:{ exists «"token_load_fn"». split; [|done]. unfold required_options.
      rewrite !elem_of_cons. tauto. }
  destruct (options self !! «"model"») as [model|] eqn:Hmodel.
  2:{ exists «"model"». split; [|done]. unfold required_options.
      rewrite !elem_of_cons. tauto. }
  destruct (options self !! «"endpoint_url"») as [url|] eqn:Hurl.
  2:{ exists «"endpoint_url"». split; [|done]. unfold required_options.
      rewrite !elem_of_cons. tauto. }
  exfalso. unfold required_options in Hkey.
  rewrite !elem_of_cons, elem_of_nil in Hkey.
  destruct Hkey as [->|[->|[->|[->|[->|[]]]]]]; congruence.
Qed.


Lemma make_codex_options_no_prompt (options payload : gmap pystr value) :
  _make_codex_options options = Ok payload -> payload !! «"prompt"» = None.
Proof.
  unfold _make_codex_options.
  destruct (options !! «"model"») as [model|]; [|done]. intros Heq.
  apply (f_equal (fun o => match o with Ok p => p | Raise _ => ∅ end)) in Heq.
  cbv beta iota in Heq. rewrite <- Heq.
  rewrite fold_add_option_lookup, bool_decide_eq_false_2.
  - by rewrite lookup_singleton_ne.
  - apply (bool_decide_unpack _). by vm_compute.
Qed.

(** X18.  With its options in place, the credential at hand and a URL
    the request can be built from, [request] makes exactly one call: a
    POST to [endpoint_url], whose payload has the compiled prompt at
    [prompt] and otherwise the payload of the request builder, with the
    authentication headers of the mode and the timeout [request_timeout],
    or 20 when that is missing or false in the sense of Python.  The
    chunks are the mapped events of the response as far as it is read, or
    none and the error of the transport.  When the request cannot be
    built, no call is made and the run ends with the exception. *)
Theorem request_sends_prompt_and_payload
    (self : provider) (messages : list AIMessage) (w : world)
    (auth_type path fn url : value) (payload : gmap pystr value)
    (credential : pystr) :
  options self !! «"auth_type"» = Some auth_type ->
  options self !! «"token_file_path"» = Some path ->
  options self !! «"token_load_fn"» = Some fn ->
  options self !! «"endpoint_url"» = Some url ->
  _make_codex_options (options self) = Ok payload ->
  (eq_str auth_type «"bearer"» || eq_str auth_type «"api-key"» = true ->
   load_api_key «"OPENAI_API_KEY"» path fn = Ok credential) ->
  (forall e,
      Request url (payload ∪ {[ «"prompt"» := PStr (_messages_to_prompt messages) ]})
        (auth_headers auth_type credential ∪ base_headers) «"POST"» = Raise e ->
      request self messages w = (fail e, w))
  /\ (Request url (payload ∪ {[ «"prompt"» := PStr (_messages_to_prompt messages) ]})
        (auth_headers auth_type credential ∪ base_headers) «"POST"» = Ok tt ->
      exists req,
        (request self messages w).2 = {| http_calls := http_calls w ++ [req] |}
        /\ req_url req = url
        /\ req_method req = «"POST"»
        /\ req_data req !! «"prompt"» = Some (PStr (_messages_to_prompt messages))
        /\ (forall key, key <> «"prompt"» -> req_data req !! key = payload !! key)
        /\ req_headers req = auth_headers auth_type credential ∪ base_headers
        /\ req_timeout req
           = match options self !! «"request_timeout"» with
             | Some timeout => if truthy timeout then timeout else PInt 20
             | None => PInt 20
             end
        /\ (request self messages w).1
           = match urlopen req with
             | Ok response =>
                 let events :=
                   match read_failure req with
                   | None => read_response (req_data req) response
                   | Some broken => read_broken (req_data req) response broken
                   end in
                 map_chunks (yielded events) (ending events)
             | Raise e => fail e
             end).
Proof.
  intros Hauth Hpath Hfn Hurl Hmake Hload.
  unfold request, item. rewrite Hauth, Hpath, Hfn, Hurl, Hmake.
  cbn [mbind outcome_bind].
  set (http_options := ({[ «"request_timeout"» := _; «"auth_type"» := auth_type;
                           «"token_file_path"» := path; «"token_load_fn"» := fn ]}
                        : gmap pystr value)).
  assert (http_options !! «"auth_type"» = Some auth_type) as Hmode by reflexivity.
  assert (request_headers self http_options
          = Ok (auth_headers auth_type credential ∪ base_headers)) as Hheaders.
  { apply request_headers_by_mode; [done|]. intros Hneeds.
    unfold get_or_empty. rewrite Hpath, Hfn. by apply Hload. }
  rewrite (openai_request_run _ _ _ _ w _ Hheaders). cbv zeta.
  split; [by intros e ->|]. intros ->.
  match goal with |- context [urlopen ?r] => exists r end.
  cbn [fst snd req_url req_method req_data req_headers req_timeout].
  split; [done|]. split; [done|]. split; [done|].
  split; [rewrite lookup_union_r by (by eapply make_codex_options_no_prompt);
          apply lookup_singleton_eq|].
  split; [intros key Hkey; rewrite lookup_union, lookup_singleton_ne by done;
          by destruct (payload !! key)|].
  split; [done|].
  split; [subst http_options; by destruct (options self !! «"request_timeout"»)|].
  by destruct (urlopen _).
Qed.

End MoreRequests.

Section MoreConstruction.
Context `{Python} `{!Host}.
Import OpenAICodexProvider Spec More.

(** X19.  Construction never makes an HTTP call.  A provider that is
    constructed has the command type asked for, which is [complete] or
    [edit]; its options are the normalised union of the raw options and
    the defaults of the editor; and at a key without converter a raw
    option wins over the default, the default standing in where no raw
    option is given. *)
Theorem init_never_calls_and_checks_command
    (command_type : pystr) (raw_options : gmap pystr value) (w : world) :
  (__init__ command_type raw_options w).2 = w
  /\ forall self,
       (__init__ command_type raw_options w).1 = Ok self ->
       OpenAICodexProvider.command_type self = command_type
       /\ (command_type = «"complete"» \/ command_type = «"edit"»)
       /\ _parse_raw_options (raw_options ∪ vim_eval (config_varname command_type))
          = Ok (options self)
       /\ (forall key v, converter_of key = None ->
                         raw_options !! key = Some v -> options self !! key = Some v)
       /\ (forall key, converter_of key = None ->
                       raw_options !! key = None ->
                       options self !! key
                       = vim_eval (config_varname command_type) !! key).
Proof.
  unfold __init__, pure, mbind, M_bind.
  set (merged := raw_options ∪ _).
  pose proof (normalise_entries merged) as Hn.
  destruct (_parse_raw_options merged) as [options|e] eqn:Hparse; [|done].
  unfold _ensure_supported_command.
  destruct (str_eqb command_type «"complete"» || str_eqb command_type «"edit"»)
    eqn:Hsupported; cbn [negb]; [|done].
  assert (command_type = «"complete"» \/ command_type = «"edit"») as Hcases.
  { apply orb_true_iff in Hsupported as [Hc|Hc];
      apply bool_decide_eq_true_1 in Hc; tauto. }
  assert (merged = raw_options ∪ vim_eval (config_varname command_type)) as Hmerged.
  { subst merged. by destruct Hcases as [->| ->]. }
  rewrite Hmerged in Hn, Hparse.
  split; [done|]. intros self [= <-].
  cbn [OpenAICodexProvider.command_type OpenAICodexProvider.options].
  split; [done|]. split; [done|]. split; [done|]. split.
  - intros key v Hconv Hraw. specialize (Hn key). rewrite Hconv in Hn.
    rewrite Hn. by apply lookup_union_Some_l.
  - intros key Hconv Hraw. specialize (Hn key). rewrite Hconv in Hn.
    rewrite Hn. by apply lookup_union_r.
Qed.

End MoreConstruction.

(** ** The further properties at work on the test doubles *)

Section MoreWitnesses.
Import OpenAICodexProvider Spec More Mocks Samples.

Lemma parse_raw_options_keeps_keys_witness :
  dom stream_normalised = dom stream_as_text.
Proof.
  apply (@parse_raw_options_keeps_keys python stream_as_text stream_normalised).
  reflexivity.
Defined.

Lemma parse_raw_options_reports_first_failure_witness :
  exists before name conv after text error,
    @converters python = before ++ (name, conv) :: after
    /\ Forall (@converts python two_bad_options) before
    /\ two_bad_options !! name = Some (PStr text) /\ text <> []
    /\ conv text = inl error
    /\ KnownError (invalid_value «"temperature"» «"hot"» (float_error «"hot"»))
       = wrapped name text error.
Proof.
  apply (@parse_raw_options_reports_first_failure python two_bad_options).
  reflexivity.
Defined.

Lemma parse_raw_options_nothing_to_convert_witness :
  @_parse_raw_options python _CODEX_DEFAULTS = Ok _CODEX_DEFAULTS.
Proof.
  apply (@parse_raw_options_nothing_to_convert python _CODEX_DEFAULTS).
  intros name text Hname. cbn [converters fmap list_fmap fst] in Hname.
  rewrite !elem_of_cons, elem_of_nil in Hname.
  repeat (destruct Hname as [->|Hname]; [vm_compute; by intros [= <-]|]).
  destruct Hname.
Defined.

Lemma empty_text_option_is_not_sent_witness :
  exists payload,
    @_make_codex_options python _CODEX_DEFAULTS = Ok payload
    /\ payload !! «"suffix"» = None.
Proof.
  destruct (@make_codex_options_lookup python _CODEX_DEFAULTS
              (PStr «"code-davinci-002"»)) as (payload & Hmake & _);
    [reflexivity|].
  exists payload. split; [done|].
  refine (proj2 (@empty_text_option_is_not_sent python _CODEX_DEFAULTS
                   _CODEX_DEFAULTS payload «"suffix"» _ _ _ Hmake)).
  - unfold option_keys. rewrite !elem_of_cons. tauto.
  - reflexivity.
  - reflexivity.
Defined.

Lemma zero_text_count_is_not_sent_witness :
  exists payload,
    @_make_codex_options python zero_n_normalised = Ok payload
    /\ payload !! «"n"» = None.
Proof.
  destruct (@make_codex_options_lookup python zero_n_normalised
              (PStr «"code-davinci-002"»)) as (payload & Hmake & _);
    [reflexivity|].
  exists payload. split; [done|].
  refine (proj2 (@zero_text_count_is_not_sent python zero_n zero_n_normalised
                   payload «"n"» «"0"» _ _ _ _ _ Hmake)).
  - unfold count_like. rewrite !elem_of_cons. tauto.
  - reflexivity.
  - discriminate.
  - reflexivity.
  - reflexivity.
Defined.

Lemma read_stream_passes_over_witness :
  @read_stream python (body_lines hi_stream)
  = @read_stream python [line (jlit "data: {'choices':[{'text':'Hi'}]}");
                         line «"data: [DONE]"»].
Proof.
  apply (@read_stream_passes_over python
           [line (jlit "data: {'choices':[{'text':'Hi'}]}")]
           [line «"data: [DONE]"»] (line «": keep-alive"»)).
  left. reflexivity.
Defined.

Lemma load_api_key_segments_are_clean_witness :
  exists api_key org_id,
    @_load_api_key python (host «" test-key , org-1 "» unreachable) bare_provider
    = Ok (api_key, org_id)
    /\ (comma ∉ api_key) /\ strip api_key = api_key
    /\ (org_id = None <-> (comma ∉ «" test-key , org-1 "»))
    /\ (forall org, org_id = Some org -> (comma ∉ org) /\ strip org = org).
Proof.
  apply (@load_api_key_segments_are_clean python
           (host «" test-key , org-1 "» unreachable) bare_provider).
  reflexivity.
Defined.

Lemma transport_outcome_after_one_call_witness :
  exists req,
    @req_url python req = endpoint /\ @req_data python req = ∅
    /\ @req_headers python req = base_headers
    /\ @req_method python req = «"POST"»
    /\ @req_timeout python req = PInt 20
    /\ (@_openai_request python (host [] unreachable) bare_provider
          endpoint ∅ open_options no_calls).2
       = {| http_calls := [req] |}
    /\ (@_openai_request python (host [] unreachable) bare_provider
          endpoint ∅ open_options no_calls).1 = fail (TransportError []).
Proof.
  destruct (proj2 (@transport_outcome_after_one_call python (host [] unreachable)
                     bare_provider endpoint ∅ open_options no_calls base_headers
                     eq_refl) eq_refl)
    as (req & Hurl & Hdata & Hheaders & Hmethod & Htimeout & Hlog & Hfail & _).
  exists req. repeat (split; [assumption|]). apply Hfail. reflexivity.
Defined.

Lemma request_missing_option_no_call_witness :
  exists missing,
    missing ∈ required_options
    /\ options bare_provider !! missing = None
    /\ @request python (host [] unreachable) bare_provider _make_messages no_calls
       = (fail (KeyError missing), no_calls).
Proof.
  apply (@request_missing_option_no_call python (host [] unreachable)
           bare_provider _make_messages no_calls «"auth_type"»).
  - unfold required_options. rewrite !elem_of_cons. tauto.
  - reflexivity.
Defined.

Lemma request_sends_prompt_and_payload_witness :
  exists req,
    (@request python (host «"test-key"» (Ok hi_stream))
       default_provider _make_messages no_calls).2 = {| http_calls := [req] |}
    /\ @req_url python req = endpoint
    /\ @req_data python req !! «"prompt"»
       = Some (PStr (_messages_to_prompt _make_messages))
    /\ @req_headers python req
       = {[ «"Authorization"» := «"Bearer test-key"» ]} ∪ base_headers.
Proof.
  destruct (@make_codex_options_lookup python _CODEX_DEFAULTS
              (PStr «"code-davinci-002"»)) as (payload & Hmake & _);
    [reflexivity|].
  destruct (proj2 (@request_sends_prompt_and_payload python
              (host «"test-key"» (Ok hi_stream)) default_provider _make_messages
              no_calls (PStr «"bearer"») (PStr []) (PStr []) endpoint payload
              «"test-key"» eq_refl eq_refl eq_refl eq_refl Hmake
              (fun _ => eq_refl)) eq_refl)
    as (req & Hlog & Hurl & _ & Hprompt & _ & Hheaders & _).
  exists req. by repeat split.
Defined.

End MoreWitnesses.
